(** * The partitioned coupling driver of dumux-adapter

    A shallow embedding of [main] of
    [appl/conjugateheattransfer/iterative/main_solidenergy.cc] (the
    solid-energy driver with its implicit-coupling time loop) and of
    [main] of [examples/ff-pm/partitioned/eggenweiler-rybak-2d/main_darcy.cc]
    (the stationary Darcy driver).

    The drivers are coordination code: they call the finite-volume
    framework (DuMuX/Dune) and the coupling substrate (preCICE).  Both are
    external, so they appear here as two records of operations,
    [Framework] and [SolverInterface]; the drivers are functions of them.
    Every call that crosses one of the two interfaces is logged as an
    [Event], in program order, so that statements about "what is called,
    with what, and in which order" are statements about the trace.

    Scalars ([double] in the source) are rationals: the drivers only copy,
    compare and take [std::max] of them.  NaN and rounding are outside the
    model. *)

From Stdlib Require Import String ZArith QArith List Bool Lia.
Import ListNotations.

Set Implicit Arguments.

(** ** Scalars *)

Definition Scalar := Q.

(** [std::max(a, b)] is [(a < b) ? b : a]. *)
Definition std_max (a b : Scalar) : Scalar :=
  if Qle_bool b a then a else b.

(** [std::min(a, b)] is [(b < a) ? b : a]. *)
Definition std_min (a b : Scalar) : Scalar :=
  if Qle_bool a b then a else b.

(** The solution vector: one scalar per degree of freedom. *)
Definition SolutionVector := list Scalar.

(** ** Exceptions and the handlers of [main] *)

(** The dynamic types of what can be thrown into [main]'s function-try-block.
    [StdException] stands for everything outside the Dune hierarchy. *)
Inductive ExceptionType :=
| DuneException
| DuneIOError
| DuneDGFException
| DuneInvalidStateException
| DumuxParameterException
| DumuxNumericalProblem
| StdException.

Definition ExceptionType_eqb (a b : ExceptionType) : bool :=
  match a, b with
  | DuneException, DuneException
  | DuneIOError, DuneIOError
  | DuneDGFException, DuneDGFException
  | DuneInvalidStateException, DuneInvalidStateException
  | DumuxParameterException, DumuxParameterException
  | DumuxNumericalProblem, DumuxNumericalProblem
  | StdException, StdException => true
  | _, _ => false
  end.

(** Proper base classes, nearest first: [Dune::DGFException] derives from
    [Dune::IOError], which derives from [Dune::Exception];
    [Dumux::ParameterException], [Dumux::NumericalProblem] and
    [Dune::InvalidStateException] derive from [Dune::Exception]. *)
Definition bases (e : ExceptionType) : list ExceptionType :=
  match e with
  | DuneException => []
  | DuneIOError => [DuneException]
  | DuneDGFException => [DuneIOError; DuneException]
  | DuneInvalidStateException => [DuneException]
  | DumuxParameterException => [DuneException]
  | DumuxNumericalProblem => [DuneException]
  | StdException => []
  end.

(** [is_a e t]: an object of dynamic type [e] binds to [catch (t &)]. *)
Definition is_a (e t : ExceptionType) : bool :=
  ExceptionType_eqb e t || existsb (ExceptionType_eqb t) (bases e).

Inductive CatchClause :=
| Catch (t : ExceptionType)
| CatchAll.

Definition catches (c : CatchClause) (e : ExceptionType) : bool :=
  match c with
  | Catch t => is_a e t
  | CatchAll => true
  end.

(** Handlers are tried in the order they are written; the first that
    matches runs. *)
Fixpoint dispatch (hs : list (CatchClause * Z)) (e : ExceptionType) : option Z :=
  match hs with
  | [] => None
  | (c, code) :: hs' => if catches c e then Some code else dispatch hs' e
  end.

(** The four handlers that follow [main]'s body in main_solidenergy.cc. *)
Definition main_handlers : list (CatchClause * Z) :=
  [ (Catch DumuxParameterException, 1%Z);
    (Catch DuneDGFException, 2%Z);
    (Catch DuneException, 3%Z);
    (CatchAll, 4%Z) ].

(** ** The coupling substrate *)

(** [precice::constants::action...()] *)
Inductive Action :=
| actionReadIterationCheckpoint
| actionWriteIterationCheckpoint
| actionWriteInitialData.

Definition Action_eqb (a b : Action) : bool :=
  match a, b with
  | actionReadIterationCheckpoint, actionReadIterationCheckpoint
  | actionWriteIterationCheckpoint, actionWriteIterationCheckpoint
  | actionWriteInitialData, actionWriteInitialData => true
  | _, _ => false
  end.

(** The two constants [main] binds. *)
Definition readCheckpoint : Action := actionReadIterationCheckpoint.
Definition writeCheckpoint : Action := actionWriteIterationCheckpoint.

(** [precice::SolverInterface], after construction and [configure]. *)
Record SolverInterface := {
  PState : Type;
  configured : PState;
  getDimensions : PState -> Z;
  getMeshID : string -> Z;
  setMeshVertices : Z -> nat -> list Scalar -> PState -> list Z * PState;
  getDataID : string -> Z -> Z;
  initialize : PState -> Scalar * PState;
  initializeData : PState -> PState;
  isActionRequired : Action -> PState -> bool;
  fulfilledAction : Action -> PState -> PState;
  advance : Scalar -> PState -> Scalar * PState;
  isCouplingOngoing : PState -> bool;
  finalize : PState -> PState
}.

(** ** The finite-volume framework *)

(** A sub-control-volume face: [scvf.index()] and [scvf.center()]. *)
Record Scvf := {
  index : nat;
  center : list Scalar
}.

Record Framework := {
  (* Parameters::init and getParam: [None] from [getParam] is a
     ParameterException *)
  Parameters_init : option ExceptionType;
  getParam : string -> option Scalar;
  (* GridManager::init, the leaf grid view and the grid geometry *)
  gridManager_init : option ExceptionType;
  elements : list (list Scvf);
  numDofs : nat;
  bBoxx : list Scalar;
  GridView_dimension : Z;
  (* Problem *)
  applyInitialSolution : SolutionVector -> SolutionVector;
  (* GridVariables *)
  GridVariables : Type;
  gv_init : SolutionVector -> GridVariables;
  gv_update : GridVariables -> SolutionVector -> GridVariables;
  gv_advanceTimeStep : GridVariables -> GridVariables;
  (* TimeLoop *)
  TimeLoop : Type;
  tl_new : Scalar -> Scalar -> Scalar -> TimeLoop;
  tl_setMaxTimeStepSize : TimeLoop -> Scalar -> TimeLoop;
  tl_start : TimeLoop -> TimeLoop;
  tl_advanceTimeStep : TimeLoop -> TimeLoop;
  tl_setTimeStepSize : TimeLoop -> Scalar -> TimeLoop;
  tl_time : TimeLoop -> Scalar;
  tl_timeStepSize : TimeLoop -> Scalar;
  tl_finished : TimeLoop -> bool;
  (* NewtonSolver; the assembler it wraps sees the previous solution *)
  NewtonSolver : Type;
  newton_new : NewtonSolver;
  newton_solve :
    NewtonSolver -> SolutionVector -> GridVariables -> SolutionVector -> TimeLoop ->
    ExceptionType + (NewtonSolver * SolutionVector * GridVariables * TimeLoop);
  suggestTimeStepSize : NewtonSolver -> Scalar -> Scalar;
  (* the overload without a time loop, for stationary problems *)
  newton_solve_stationary :
    NewtonSolver -> GridVariables -> SolutionVector ->
    ExceptionType + (NewtonSolver * SolutionVector * GridVariables)
}.

(** ** Events *)

Inductive Event :=
| EvSetMeshVertices (meshId : Z) (vertexSize : nat) (coords : list Scalar)
| EvInitialize (maxDt : Scalar)
| EvInitializeData
| EvIsActionRequired (a : Action) (answer : bool)
| EvFulfilledAction (a : Action)
| EvAdvance (computedDt maxNextDt : Scalar)
| EvIsCouplingOngoing (answer : bool)
| EvPreciceFinalize
| EvTimeLoopNew (startTime dt tEnd : Scalar)
| EvSetMaxTimeStepSize (maxDt : Scalar)
| EvTimeLoopStart
| EvTimeLoopAdvance
| EvSetTimeStepSize (dt : Scalar)
| EvReportTimeStep
| EvTimeLoopFinalize
| EvSetPreviousSolution (prev : SolutionVector)
| EvSolve (before : SolutionVector)
| EvGridVariablesAdvance
| EvGridVariablesUpdate (s : SolutionVector)
| EvVtkWrite (t : Scalar)
| EvAnnounceSolver (name configurationFileName : string)
| EvPrintL2Error (x : SolutionVector).

Definition is_vtk (e : Event) : bool :=
  match e with EvVtkWrite _ => true | _ => false end.

Definition is_query (a : Action) (r : bool) (e : Event) : bool :=
  match e with
  | EvIsActionRequired a' r' => Action_eqb a a' && Bool.eqb r r'
  | _ => false
  end.


Definition is_mesh (e : Event) : bool :=
  match e with EvSetMeshVertices _ _ _ => true | _ => false end.

(** Number of VTK frames in a trace. *)
Definition vtk_frames (tr : list Event) : nat := length (filter is_vtk tr).

(** An iteration is accepted when its [readCheckpoint] query answers
    false, and is a rollback when it answers true. *)
Definition accepted_iterations (tr : list Event) : nat :=
  length (filter (is_query readCheckpoint false) tr).

Definition rollback_iterations (tr : list Event) : nat :=
  length (filter (is_query readCheckpoint true) tr).

(** ** Results and the driver monad *)

Inductive Result (A : Type) :=
| Ok (a : A)
| Throw (e : ExceptionType)
| OutOfFuel.

Arguments Ok {A} a.
Arguments Throw {A} e.
Arguments OutOfFuel {A}.

(** ** Interface extraction

    The traversal of main_solidenergy.cc: for every element, for every
    sub-control-volume face of it, the face is on the coupling interface
    when [pos[1] > bBoxx()[1] - eps].  (The source names the grid view
    [freeFlowGridView] and the geometry [freeFlowFvGridGeometry] here; the
    file declares one grid view and one geometry, which is what the
    traversal is taken over.) *)

Definition eps : Scalar := 1 # 10000000.

Definition on_interface (bBox : list Scalar) (scvf : Scvf) : bool :=
  let pos := center scvf in
  negb (Qle_bool (nth 1 pos 0) (nth 1 bBox 0 - eps)).

(** The accumulators are [(coords, coupledScvfIndices)]; both grow by
    [push_back]. *)
Definition visit_scvf (bBox : list Scalar)
    (acc : list Scalar * list nat) (scvf : Scvf) : list Scalar * list nat :=
  if on_interface bBox scvf
  then (fst acc ++ center scvf, snd acc ++ [index scvf])
  else acc.

Definition visit_element (bBox : list Scalar)
    (acc : list Scalar * list nat) (element : list Scvf) : list Scalar * list nat :=
  fold_left (visit_scvf bBox) element acc.

Definition extract_interface (els : list (list Scvf)) (bBox : list Scalar)
    : list Scalar * list nat :=
  fold_left (visit_element bBox) els ([], []).

(** [coords.size() / dim] *)
Definition vertex_count (coords : list Scalar) (dim : Z) : nat :=
  Z.to_nat (Z.of_nat (List.length coords) / dim).

(** ** The driver *)

Declare Scope driver_scope.
Delimit Scope driver_scope with driver.

(** What the driver acts on: the substrate (in a state of type [P]) and
    the log of calls. *)
Record WorldState (P : Type) := Build_World {
  precice : P;
  trace : list Event
}.

(** The variables of [main] that live across loop iterations; [GV], [TL]
    and [NS] are the framework's types of the grid variables, the time
    loop and the Newton solver. *)
Record LoopVars (GV TL NS : Type) := Build_Vars {
  sol : SolutionVector;
  solOld : SolutionVector;
  sol_checkpoint : SolutionVector;
  solidEnergyGridVariables : GV;
  timeLoop : TL;
  nonLinearSolver : NS
}.

Section Driver.

Variable fw : Framework.
Variable pc : SolverInterface.

Definition World : Type := WorldState (PState pc).

Definition M (A : Type) : Type := World -> Result A * World.

Definition ret {A} (a : A) : M A := fun w => (Ok a, w).

Definition bind {A B} (m : M A) (k : A -> M B) : M B :=
  fun w =>
    match m w with
    | (Ok a, w') => k a w'
    | (Throw e, w') => (Throw e, w')
    | (OutOfFuel, w') => (OutOfFuel, w')
    end.

Definition throw {A} (e : ExceptionType) : M A := fun w => (Throw e, w).

Definition log (w : World) (e : Event) : World :=
  {| precice := precice w; trace := trace w ++ [e] |}.

Definition emit (e : Event) : M unit := fun w => (Ok tt, log w e).

Notation "x <- m ;; k" := (bind m (fun x => k))
  (at level 61, m at next level, right associativity) : driver_scope.
Notation "m ;;; k" := (bind m (fun _ => k))
  (at level 61, right associativity) : driver_scope.

Local Open Scope driver_scope.

(** A framework call that may throw. *)
Definition may_throw (r : option ExceptionType) : M unit :=
  match r with
  | Some e => throw e
  | None => ret tt
  end.

Definition param (name : string) : M Scalar :=
  match getParam fw name with
  | Some x => ret x
  | None => throw DumuxParameterException
  end.

(** Calls into the substrate. *)
Definition precice_setMeshVertices (meshId : Z) (n : nat) (coords : list Scalar)
    : M (list Z) :=
  fun w =>
    let (ids, p) := setMeshVertices pc meshId n coords (precice w) in
    (Ok ids, {| precice := p; trace := trace w ++ [EvSetMeshVertices meshId n coords] |}).

Definition precice_initialize : M Scalar :=
  fun w =>
    let (dt, p) := initialize pc (precice w) in
    (Ok dt, {| precice := p; trace := trace w ++ [EvInitialize dt] |}).

Definition precice_initializeData : M unit :=
  fun w =>
    (Ok tt, {| precice := initializeData pc (precice w);
               trace := trace w ++ [EvInitializeData] |}).

Definition precice_isActionRequired (a : Action) : M bool :=
  fun w =>
    let r := isActionRequired pc a (precice w) in
    (Ok r, log w (EvIsActionRequired a r)).

Definition precice_fulfilledAction (a : Action) : M unit :=
  fun w =>
    (Ok tt, {| precice := fulfilledAction pc a (precice w);
               trace := trace w ++ [EvFulfilledAction a] |}).

Definition precice_advance (dt : Scalar) : M Scalar :=
  fun w =>
    let (next, p) := advance pc dt (precice w) in
    (Ok next, {| precice := p; trace := trace w ++ [EvAdvance dt next] |}).

Definition precice_isCouplingOngoing : M bool :=
  fun w =>
    let r := isCouplingOngoing pc (precice w) in
    (Ok r, log w (EvIsCouplingOngoing r)).

Definition precice_finalize : M unit :=
  fun w =>
    (Ok tt, {| precice := finalize pc (precice w);
               trace := trace w ++ [EvPreciceFinalize] |}).

Definition Vars : Type :=
  LoopVars (GridVariables fw) (TimeLoop fw) (NewtonSolver fw).

(** [nonLinearSolver.solve(sol, *timeLoop)], with the previous solution
    the assembler was given. *)
Definition solve (v : Vars)
    : M (NewtonSolver fw * SolutionVector * GridVariables fw * TimeLoop fw) :=
  emit (EvSolve (sol v)) ;;;
  match newton_solve fw (nonLinearSolver v) (solOld v)
          (solidEnergyGridVariables v) (sol v) (timeLoop v) with
  | inl e => throw e
  | inr r => ret r
  end.

(** The [if (isActionRequired(writeCheckpoint))] block: the new value of
    [sol_checkpoint]. *)
Definition write_checkpoint_block (v : Vars) : M SolutionVector :=
  wc <- precice_isActionRequired writeCheckpoint ;;
  if wc then
    precice_fulfilledAction writeCheckpoint ;;;
    ret (sol v)
  else
    ret (sol_checkpoint v).

(** The [if (isActionRequired(readCheckpoint))] branch.  The source
    writes [freeFlowGridVariables->update(sol)]; the grid variables of
    this driver are the ones updated here. *)
Definition rollback_branch (v : Vars) : M Vars :=
  let sol' := sol_checkpoint v in
  emit (EvGridVariablesUpdate sol') ;;;
  let gv := gv_update fw (solidEnergyGridVariables v) sol' in
  precice_fulfilledAction writeCheckpoint ;;;
  ret {| sol := sol';
         solOld := solOld v;
         sol_checkpoint := sol_checkpoint v;
         solidEnergyGridVariables := gv;
         timeLoop := timeLoop v;
         nonLinearSolver := nonLinearSolver v |}.

(** The [else] branch ("coupling successful"). *)
Definition accept_branch (v : Vars) : M Vars :=
  emit EvTimeLoopAdvance ;;;
  let tl := tl_advanceTimeStep fw (timeLoop v) in
  emit (EvVtkWrite (tl_time fw tl)) ;;;
  emit EvReportTimeStep ;;;
  preciceDt <- precice_advance (tl_timeStepSize fw tl) ;;
  let newDt := std_max preciceDt (tl_timeStepSize fw tl) in
  let dt := suggestTimeStepSize fw (nonLinearSolver v) newDt in
  emit (EvSetTimeStepSize dt) ;;;
  ret {| sol := sol v;
         solOld := solOld v;
         sol_checkpoint := sol_checkpoint v;
         solidEnergyGridVariables := solidEnergyGridVariables v;
         timeLoop := tl_setTimeStepSize fw tl dt;
         nonLinearSolver := nonLinearSolver v |}.

(** One execution of the body of the do-while loop. *)
Definition loop_body (v : Vars) : M Vars :=
  cp <- write_checkpoint_block v ;;
  emit (EvSetPreviousSolution (solOld v)) ;;;
  r <- solve v ;;
  let '(ns, sol1, gv1, tl1) := r in
  (* solOld = sol; solidEnergyGridVariables->advanceTimeStep(); *)
  emit EvGridVariablesAdvance ;;;
  let v1 := {| sol := sol1;
               solOld := sol1;
               sol_checkpoint := cp;
               solidEnergyGridVariables := gv_advanceTimeStep fw gv1;
               timeLoop := tl1;
               nonLinearSolver := ns |} in
  rc <- precice_isActionRequired readCheckpoint ;;
  if rc then rollback_branch v1 else accept_branch v1.

(** [!timeLoop->finished() && precice.isCouplingOngoing()]: the right
    operand is evaluated only when the left one is true. *)
Definition loop_condition (v : Vars) : M bool :=
  if tl_finished fw (timeLoop v) then ret false
  else precice_isCouplingOngoing.

(** [do { body } while (condition);] *)
Fixpoint do_while (fuel : nat) (v : Vars) : M Vars :=
  match fuel with
  | O => fun w => (OutOfFuel, w)
  | S fuel' =>
      v' <- loop_body v ;;
      again <- loop_condition v' ;;
      if again then do_while fuel' v' else ret v'
  end.

(** Everything [main] does before [timeLoop->start()]. *)
Definition startup : M Vars :=
  may_throw (Parameters_init fw) ;;;
  may_throw (gridManager_init fw) ;;;
  let sol0 : SolutionVector := repeat 0 (numDofs fw) in
  dim <- (fun w => (Ok (getDimensions pc (precice w)), w)) ;;
  if negb (Z.eqb dim (GridView_dimension fw)) then throw DuneInvalidStateException
  else
    let meshId := getMeshID pc "SolidEnergyMesh" in
    let coords := fst (extract_interface (elements fw) (bBoxx fw)) in
    let vertexSize := vertex_count coords dim in
    _ <- precice_setMeshVertices meshId vertexSize coords ;;
    let sol1 := applyInitialSolution fw sol0 in
    preciceDt <- precice_initialize ;;
    precice_initializeData ;;;
    let gv := gv_init fw sol1 in
    emit (EvVtkWrite 0) ;;;
    tEnd <- param "TimeLoop.TEnd" ;;
    maxDt <- param "TimeLoop.MaxTimeStepSize" ;;
    dt <- param "TimeLoop.DtInitial" ;;
    let dt := std_max dt preciceDt in
    emit (EvTimeLoopNew 0 dt tEnd) ;;;
    emit (EvSetMaxTimeStepSize maxDt) ;;;
    let tl := tl_setMaxTimeStepSize fw (tl_new fw 0 dt tEnd) maxDt in
    ret {| sol := sol1;
           solOld := sol1;
           sol_checkpoint := sol1;
           solidEnergyGridVariables := gv;
           timeLoop := tl;
           nonLinearSolver := newton_new fw |}.

(** The body of [main] inside the function-try-block. *)
Definition main_body (fuel : nat) : M unit :=
  v <- startup ;;
  emit EvTimeLoopStart ;;;
  _ <- do_while fuel {| sol := sol v;
                        solOld := solOld v;
                        sol_checkpoint := sol_checkpoint v;
                        solidEnergyGridVariables := solidEnergyGridVariables v;
                        timeLoop := tl_start fw (timeLoop v);
                        nonLinearSolver := nonLinearSolver v |} ;;
  emit EvTimeLoopFinalize ;;;
  precice_finalize ;;;
  ret tt.

Definition world0 : World := {| precice := configured pc; trace := [] |}.

(** The exit code of a finished run of [main]. *)
Definition exit_code (r : Result unit) : option Z :=
  match r with
  | Ok _ => Some 0%Z
  | Throw e => dispatch main_handlers e
  | OutOfFuel => None
  end.

(** [main]: the exit code and the calls made, or [None] when [fuel]
    iterations of the time loop were not enough. *)
Definition main (fuel : nat) : option (Z * list Event) :=
  let (r, w) := main_body fuel world0 in
  match exit_code r with
  | Some code => Some (code, trace w)
  | None => None
  end.

(** [main] of main_darcy.cc, given [argv].  It has no try block: a
    [Throw] result leaves [main] uncaught.  The coupling adapter is only
    announced; there is no time loop and no coupling loop. *)
Definition darcy_main_body (argv : list string) : M unit :=
  may_throw (Parameters_init fw) ;;;
  may_throw (gridManager_init fw) ;;;
  let sol0 : SolutionVector := repeat 0 (numDofs fw) in
  let argc := List.length argv in
  let preciceConfigFilename :=
    if Nat.ltb 2 argc then nth (argc - 1) argv EmptyString
    else "precice-config.xml"%string in
  emit (EvAnnounceSolver "Darcy" preciceConfigFilename) ;;;
  let gv := gv_init fw sol0 in
  emit (EvVtkWrite 0) ;;;
  emit (EvSolve sol0) ;;;
  match newton_solve_stationary fw (newton_new fw) gv sol0 with
  | inl e => throw e
  | inr (_, sol1, _) =>
      emit (EvVtkWrite 1) ;;;
      emit (EvPrintL2Error sol1) ;;;
      ret tt
  end.

End Driver.

Arguments Build_World {P} _ _.
Arguments startup : clear implicits.
Arguments main_body : clear implicits.
Arguments darcy_main_body : clear implicits.
Arguments world0 : clear implicits.
Arguments main : clear implicits.
Arguments Build_Vars {GV TL NS} _ _ _ _ _ _.

(** ** Test doubles

    A small concrete framework and substrate, for running the drivers on
    explicit inputs.  The time loop and the Newton solver follow the
    behaviour DuMuX documents for [TimeLoop] and [NewtonSolver]; the
    substrate answers from a list of time windows and two pending-action
    flags. *)

Module Stub.

(** [Dumux::TimeLoop]: [setTimeStepSize] clamps to the user's maximum
    and to the time left; [advanceTimeStep] adds the step to the time
    and re-clamps. *)
Record StubTimeLoop := {
  t_time : Scalar;
  t_dt : Scalar;
  t_end : Scalar;
  t_userMax : option Scalar
}.

Definition t_maxTimeStepSize (tl : StubTimeLoop) : Scalar :=
  let left := Qred (t_end tl - t_time tl) in
  match t_userMax tl with
  | Some m => std_min m left
  | None => left
  end.

Definition t_setTimeStepSize (tl : StubTimeLoop) (dt : Scalar) : StubTimeLoop :=
  {| t_time := t_time tl;
     t_dt := std_min dt (t_maxTimeStepSize tl);
     t_end := t_end tl;
     t_userMax := t_userMax tl |}.

Definition t_new (t0 dt tEnd : Scalar) : StubTimeLoop :=
  {| t_time := t0; t_dt := dt; t_end := tEnd; t_userMax := None |}.

Definition t_setMaxTimeStepSize (tl : StubTimeLoop) (m : Scalar) : StubTimeLoop :=
  t_setTimeStepSize
    {| t_time := t_time tl; t_dt := t_dt tl; t_end := t_end tl; t_userMax := Some m |}
    (t_dt tl).

Definition t_advanceTimeStep (tl : StubTimeLoop) : StubTimeLoop :=
  t_setTimeStepSize
    {| t_time := Qred (t_time tl + t_dt tl); t_dt := t_dt tl;
       t_end := t_end tl; t_userMax := t_userMax tl |}
    (t_dt tl).

Definition t_finished (tl : StubTimeLoop) : bool :=
  Qle_bool (t_end tl) (t_time tl).

(** [Dumux::NewtonSolver::suggestTimeStepSize] with its default target
    of 10 iterations; the state is the iteration count of the last
    solve. *)
Definition n_suggestTimeStepSize (numSteps : nat) (oldDt : Scalar) : Scalar :=
  let target := 10%nat in
  if Nat.ltb target numSteps then
    let percent := Z.of_nat (numSteps - target) # 10 in
    Qred (oldDt / (1 + percent))
  else
    let percent := Z.of_nat (target - numSteps) # 10 in
    Qred (oldDt * (1 + percent / (12 # 10))).

(** A solve that converges in [steps] iterations and adds the step size
    to every entry (one implicit Euler step of [du/dt = 1]). *)
Definition n_solve (steps : nat) (_ : nat) (prev : SolutionVector)
    (gv : SolutionVector * SolutionVector) (s : SolutionVector) (tl : StubTimeLoop)
    : ExceptionType + (nat * SolutionVector * (SolutionVector * SolutionVector) * StubTimeLoop) :=
  let s' := map (fun x => Qred (x + t_dt tl)) prev in
  inr (steps, s', (s', snd gv), tl).

Definition n_solve_stationary (steps : nat) (_ : nat)
    (gv : SolutionVector * SolutionVector) (s : SolutionVector)
    : ExceptionType + (nat * SolutionVector * (SolutionVector * SolutionVector)) :=
  inr (steps, s, gv).

(** A grid of two unit squares side by side, [[0,2] x [0,1]]; each
    element has four faces (left, right, bottom, top). *)
Definition two_cells : list (list Scvf) :=
  [ [ {| index := 0; center := [0; 1 # 2] |};
      {| index := 1; center := [1; 1 # 2] |};
      {| index := 2; center := [1 # 2; 0] |};
      {| index := 3; center := [1 # 2; 1] |} ];
    [ {| index := 4; center := [1; 1 # 2] |};
      {| index := 5; center := [2; 1 # 2] |};
      {| index := 6; center := [3 # 2; 0] |};
      {| index := 7; center := [3 # 2; 1] |} ] ].

Record Setup := {
  s_elements : list (list Scvf);
  s_bBoxx : list Scalar;
  s_tEnd : Scalar;
  s_maxDt : Scalar;
  s_dtInitial : Scalar;
  s_newtonSteps : nat
}.

Definition framework_with (pinit ginit : option ExceptionType) (s : Setup)
    : Framework :=
  {| Parameters_init := pinit;
     getParam := fun name =>
       if String.eqb name "TimeLoop.TEnd" then Some (s_tEnd s)
       else if String.eqb name "TimeLoop.MaxTimeStepSize" then Some (s_maxDt s)
       else if String.eqb name "TimeLoop.DtInitial" then Some (s_dtInitial s)
       else None;
     gridManager_init := ginit;
     elements := s_elements s;
     numDofs := List.length (s_elements s);
     bBoxx := s_bBoxx s;
     GridView_dimension := 2;
     applyInitialSolution := fun x => x;
     GridVariables := SolutionVector * SolutionVector;
     gv_init := fun x => (x, x);
     gv_update := fun gv x => (x, snd gv);
     gv_advanceTimeStep := fun gv => (fst gv, fst gv);
     TimeLoop := StubTimeLoop;
     tl_new := t_new;
     tl_setMaxTimeStepSize := t_setMaxTimeStepSize;
     tl_start := fun tl => tl;
     tl_advanceTimeStep := t_advanceTimeStep;
     tl_setTimeStepSize := t_setTimeStepSize;
     tl_time := t_time;
     tl_timeStepSize := t_dt;
     tl_finished := t_finished;
     NewtonSolver := nat;
     newton_new := 0%nat;
     newton_solve := n_solve (s_newtonSteps s);
     suggestTimeStepSize := n_suggestTimeStepSize;
     newton_solve_stationary := n_solve_stationary (s_newtonSteps s) |}.

Definition framework (s : Setup) : Framework := framework_with None None s.

(** The substrate: the pending actions and the time windows still to
    come.  [initialize] announces the first window; [advance] closes the
    current window and announces the next. *)
Record StubPrecice := {
  pending_write : bool;
  pending_read : bool;
  windows : list Scalar
}.

Definition p_isActionRequired (a : Action) (p : StubPrecice) : bool :=
  match a with
  | actionReadIterationCheckpoint => pending_read p
  | actionWriteIterationCheckpoint => pending_write p
  | actionWriteInitialData => false
  end.

Definition p_fulfilledAction (a : Action) (p : StubPrecice) : StubPrecice :=
  match a with
  | actionReadIterationCheckpoint =>
      {| pending_write := pending_write p; pending_read := false; windows := windows p |}
  | actionWriteIterationCheckpoint =>
      {| pending_write := false; pending_read := pending_read p; windows := windows p |}
  | actionWriteInitialData => p
  end.

Definition p_advance (_ : Scalar) (p : StubPrecice) : Scalar * StubPrecice :=
  (hd 0 (tl (windows p)),
   {| pending_write := pending_write p;
      pending_read := pending_read p;
      windows := tl (windows p) |}).

Definition substrate (p0 : StubPrecice) : SolverInterface :=
  {| PState := StubPrecice;
     configured := p0;
     getDimensions := fun _ => 2%Z;
     getMeshID := fun _ => 0%Z;
     setMeshVertices := fun _ n _ p => (map Z.of_nat (seq 0 n), p);
     getDataID := fun name _ => if String.eqb name "Temperature" then 0%Z else 1%Z;
     initialize := fun p => (hd 0 (windows p), p);
     initializeData := fun p => p;
     isActionRequired := p_isActionRequired;
     fulfilledAction := p_fulfilledAction;
     advance := p_advance;
     isCouplingOngoing := fun p => negb (Nat.eqb (List.length (windows p)) 0);
     finalize := fun p => p |}.

(** Explicit coupling: three steps of 1/10 up to [tEnd = 3/10], no
    action ever pending. *)
Definition explicit_setup : Setup :=
  {| s_elements := two_cells; s_bBoxx := [2; 1];
     s_tEnd := 3 # 10; s_maxDt := 1; s_dtInitial := 1 # 10;
     s_newtonSteps := 10 |}.

Definition explicit_precice : StubPrecice :=
  {| pending_write := false; pending_read := false;
     windows := [1 # 10; 1 # 10; 1 # 10; 1 # 10] |}.

(** The substrate shrinks the step: the first [advance] answers 1/20
    while the time loop runs with 1/10. *)
Definition shrinking_precice : StubPrecice :=
  {| pending_write := false; pending_read := false;
     windows := [1 # 10; 1 # 20; 1 # 20; 1 # 20; 1 # 20; 1 # 20] |}.

(** An interface predicate that matches nothing: the bounding box says
    the top is at [y = 5], no face of [two_cells] is there. *)
Definition no_interface_setup : Setup :=
  {| s_elements := two_cells; s_bBoxx := [2; 5];
     s_tEnd := 3 # 10; s_maxDt := 1; s_dtInitial := 1 # 10;
     s_newtonSteps := 10 |}.

(** Implicit coupling in the middle of a time window: a checkpoint is to
    be written and the iteration is then to be rolled back. *)
Definition rollback_precice : StubPrecice :=
  {| pending_write := true; pending_read := true;
     windows := [1 # 10; 1 # 10] |}.

End Stub.

(** ** Notions the statements below use *)

Section Notions.

Variable fw : Framework.
Variable pc : SolverInterface.

(** The events of the checkpoint-writing block, given the substrate's
    answer. *)
Definition ev_checkpoint (wc : bool) : list Event :=
  EvIsActionRequired writeCheckpoint wc ::
  (if wc then [EvFulfilledAction writeCheckpoint] else []).

(** One round of the loop: the body, then the loop condition. *)
Definition round (v : Vars fw) : M pc (bool * Vars fw) :=
  bind (loop_body (pc:=pc) v) (fun v' =>
  bind (loop_condition (pc:=pc) v') (fun again =>
  ret (again, v'))).

(** [rounds n v]: [S n] rounds in a row, whatever the loop condition
    answered in between; the answer kept is the last one. *)
Fixpoint rounds (n : nat) (v : Vars fw) : M pc (bool * Vars fw) :=
  match n with
  | O => round v
  | S n' => bind (round v) (fun r => rounds n' (snd r))
  end.

(** No face of the grid satisfies the interface predicate. *)
Definition no_face_matches : Prop :=
  forall element scvf,
    In element (elements fw) -> In scvf element ->
    on_interface (bBoxx fw) scvf = false.

(** The dt clamp as the specification words it: whenever an iteration
    calls [advance] and gets [preciceDt], the step the time loop holds
    afterwards is at most [preciceDt]. *)
Definition dt_clamped_by_substrate : Prop :=
  forall (v v' : Vars fw) (w w' : World pc) pre used preciceDt post,
    loop_body v w = (Ok v', w') ->
    trace w' = trace w ++ pre ++ EvAdvance used preciceDt :: post ->
    tl_timeStepSize fw (timeLoop v') <= preciceDt.

(** The empty-interface rule as the specification words it: with no
    matching face the run fails and no mesh is registered. *)
Definition empty_interface_is_an_error : Prop :=
  no_face_matches ->
  forall fuel code tr,
    main fw pc fuel = Some (code, tr) ->
    code <> 0%Z /\ filter is_mesh tr = [].

End Notions.

(** The state of the solid-energy driver on entry to its time loop, for
    a setup of the test doubles. *)
Definition stub_entry (s : Stub.Setup) (p : Stub.StubPrecice)
    : Vars (Stub.framework s) :=
  let z := repeat (0 : Scalar) (List.length (Stub.s_elements s)) in
  Build_Vars z z z (z, z)
    (Stub.t_setMaxTimeStepSize
       (Stub.t_new 0 (std_max (Stub.s_dtInitial s) (hd 0 (Stub.windows p)))
          (Stub.s_tEnd s))
       (Stub.s_maxDt s))
    0%nat.

(** The value of a result that is known to be [Ok]. *)
Definition value (A : Type) (d : A) (r : Result A) : A :=
  match r with
  | Ok a => a
  | _ => d
  end.

Definition stub_world (p : Stub.StubPrecice) : World (Stub.substrate p) :=
  Build_World p [].

(** ** Counting calls in a trace *)

Definition is_advance (e : Event) : bool :=
  match e with EvAdvance _ _ => true | _ => false end.

Definition is_solve (e : Event) : bool :=
  match e with EvSolve _ => true | _ => false end.

Definition is_precice_finalize (e : Event) : bool :=
  match e with EvPreciceFinalize => true | _ => false end.

Definition calls (p : Event -> bool) (tr : list Event) : nat :=
  List.length (filter p tr).

(** The frame count as the specification words it, for each of the two
    drivers: a run that returns has written one frame more than it has
    accepted coupling iterations. *)
Definition each_driver_emits_one_more_than_accepted
    (fw : Framework) (pc : SolverInterface) : Prop :=
  (forall fuel tr,
     main fw pc fuel = Some (0%Z, tr) ->
     vtk_frames tr = S (accepted_iterations tr)) /\
  (forall argv w,
     darcy_main_body fw pc argv (world0 pc) = (Ok tt, w) ->
     vtk_frames (trace w) = S (accepted_iterations (trace w))).

(** The event is a query for, or an acknowledgment of, action [a]. *)
Definition mentions (a : Action) (e : Event) : bool :=
  match e with
  | EvIsActionRequired a' _ => Action_eqb a a'
  | EvFulfilledAction a' => Action_eqb a a'
  | _ => false
  end.

(** ** Post-processing of the Darcy driver

    [createDarcyAnalyticalSolution] and the accumulation loop of
    [printDarcyL2Error] in main_darcy.cc.  Both walk the elements of the
    grid view and, for each, the sub-control volumes of the bound local
    view; [problem.analyticalSolution] is the problem's business and is a
    parameter. *)

(** A sub-control volume: [scv.dofIndex()], [scv.dofPosition()],
    [scv.volume()]. *)
Record Scv := {
  dofIndex : nat;
  dofPosition : list Scalar;
  volume : Scalar
}.

(** [l[i] = x] on a [std::vector] or a [FieldVector].  (Out of range the
    source has no defined behaviour; here the container is left as it
    is.) *)
Fixpoint assign (A : Type) (i : nat) (x : A) (l : list A) : list A :=
  match l, i with
  | [], _ => []
  | _ :: t, O => x :: t
  | h :: t, S i' => h :: assign i' x t
  end.

Section DarcyPost.

Variable analyticalSolution : list Scalar -> list Scalar.

(** [GridView::dimension] and [GridView::dimensionworld]. *)
Variable dim : nat.
Variable dimWorld : nat.

(** [for (dirIdx = 0; dirIdx < dim; ++dirIdx) v[dirIdx] = s[dirIdx];] *)
Definition copy_directions (s v : list Scalar) : list Scalar :=
  fold_left (fun acc dirIdx => assign dirIdx (nth dirIdx s 0) acc) (seq 0 dim) v.

(** The body of the inner loop of [createDarcyAnalyticalSolution]; the
    accumulators are [(analyticalPressure, analyticalVelocity)]. *)
Definition visit_scv_analytical
    (acc : list Scalar * list (list Scalar)) (scv : Scv)
    : list Scalar * list (list Scalar) :=
  let ccDofIdx := dofIndex scv in
  let analyticalSolutionAtCc := analyticalSolution (dofPosition scv) in
  (assign ccDofIdx (nth dim analyticalSolutionAtCc 0) (fst acc),
   assign ccDofIdx
     (copy_directions analyticalSolutionAtCc (nth ccDofIdx (snd acc) []))
     (snd acc)).

(** Both vectors are resized to [numDofs] (value-initialised) and filled
    element by element. *)
Definition createDarcyAnalyticalSolution (nDofs : nat) (els : list (list Scv))
    : list Scalar * list (list Scalar) :=
  fold_left (fun acc element => fold_left visit_scv_analytical element acc) els
    (repeat 0 nDofs, repeat (repeat 0 dimWorld) nDofs).

(** The body of the inner loop of [printDarcyL2Error]: the pressure is
    component 2 of the analytical solution. *)
Definition visit_scv_l2 (x : list Scalar) (l2error : Scalar) (scv : Scv) : Scalar :=
  let delta := nth (dofIndex scv) x 0 - nth 2 (analyticalSolution (dofPosition scv)) 0 in
  l2error + volume scv * (delta * delta).

(** The value of [l2error] when the loops are done, before [sqrt] is
    taken of it. *)
Definition l2error_before_sqrt (x : list Scalar) (els : list (list Scv)) : Scalar :=
  fold_left (fun acc element => fold_left (visit_scv_l2 x) element acc) els 0.

(** The grids the box and cell-centred schemes produce: every degree of
    freedom is within the vectors, and sub-control volumes of one degree
    of freedom share its position. *)
Definition consistent_dofs (nDofs : nat) (els : list (list Scv)) : Prop :=
  (forall scv, In scv (concat els) -> (dofIndex scv < nDofs)%nat) /\
  (forall a b, In a (concat els) -> In b (concat els) ->
     dofIndex a = dofIndex b -> dofPosition a = dofPosition b).

End DarcyPost.

(** ** The spatial parameters of the Darcy sub-problem (1pspatialparams.hh) *)

Record OnePSpatialParams := {
  permeability_ : Scalar;
  porosity_ : Scalar;
  alphaBJ_ : Scalar
}.

(** The constructor: three [getParam] calls without default, in this
    order; a missing key throws. *)
Definition OnePSpatialParams_new (getParam : string -> option Scalar)
    : ExceptionType + OnePSpatialParams :=
  match getParam "Darcy.SpatialParams.Permeability"%string with
  | None => inl DumuxParameterException
  | Some k =>
      match getParam "Darcy.SpatialParams.Porosity"%string with
      | None => inl DumuxParameterException
      | Some phi =>
          match getParam "Darcy.SpatialParams.AlphaBeaversJoseph"%string with
          | None => inl DumuxParameterException
          | Some alpha =>
              inr {| permeability_ := k; porosity_ := phi; alphaBJ_ := alpha |}
          end
      end
  end.

Definition permeabilityAtPos (sp : OnePSpatialParams) (globalPos : list Scalar)
    : Scalar := permeability_ sp.

Definition porosityAtPos (sp : OnePSpatialParams) (globalPos : list Scalar)
    : Scalar := porosity_ sp.

Definition beaversJosephCoeffAtPos (sp : OnePSpatialParams) (globalPos : list Scalar)
    : Scalar := alphaBJ_ sp.

(** The two preprocessor conditions of the header.  In [#if] a relation
    is 1 or 0 and [&] is the bitwise and; the block is kept when the
    value is not 0. *)
Definition relation (b : bool) : Z := if b then 1%Z else 0%Z.

(** [DUMUX_VERSION_MAJOR >= 3 & DUMUX_VERSION_MINOR >= 5]: the parent
    class is [FVPorousMediumFlowSpatialParamsOneP]. *)
Definition new_parent_class (major minor : Z) : bool :=
  negb (Z.eqb (Z.land (relation (3 <=? major)%Z) (relation (5 <=? minor)%Z)) 0).

(** [DUMUX_VERSION_MAJOR >= 3 & DUMUX_VERSION_MINOR > 4]:
    [temperatureAtPos] is declared. *)
Definition declares_temperatureAtPos (major minor : Z) : bool :=
  negb (Z.eqb (Z.land (relation (3 <=? major)%Z) (relation (4 <? minor)%Z)) 0).

(** ** More test doubles *)

(** The variables on entry to the loop: those of the startup sequence,
    with the time loop started. *)
Definition started (fw : Framework) (v : Vars fw) : Vars fw :=
  Build_Vars (sol v) (solOld v) (sol_checkpoint v) (solidEnergyGridVariables v)
    (tl_start fw (timeLoop v)) (nonLinearSolver v).

(** A framework that lacks one parameter. *)
Definition without_param (name : string) (fw : Framework) : Framework :=
  {| Parameters_init := Parameters_init fw;
     getParam := fun n => if String.eqb n name then None else getParam fw n;
     gridManager_init := gridManager_init fw;
     elements := elements fw;
     numDofs := numDofs fw;
     bBoxx := bBoxx fw;
     GridView_dimension := GridView_dimension fw;
     applyInitialSolution := applyInitialSolution fw;
     GridVariables := GridVariables fw;
     gv_init := gv_init fw;
     gv_update := gv_update fw;
     gv_advanceTimeStep := gv_advanceTimeStep fw;
     TimeLoop := TimeLoop fw;
     tl_new := tl_new fw;
     tl_setMaxTimeStepSize := tl_setMaxTimeStepSize fw;
     tl_start := tl_start fw;
     tl_advanceTimeStep := tl_advanceTimeStep fw;
     tl_setTimeStepSize := tl_setTimeStepSize fw;
     tl_time := tl_time fw;
     tl_timeStepSize := tl_timeStepSize fw;
     tl_finished := tl_finished fw;
     NewtonSolver := NewtonSolver fw;
     newton_new := newton_new fw;
     newton_solve := newton_solve fw;
     suggestTimeStepSize := suggestTimeStepSize fw;
     newton_solve_stationary := newton_solve_stationary fw |}.

(** A framework whose Newton solver gives up. *)
Definition with_failing_newton (fw : Framework) : Framework :=
  {| Parameters_init := Parameters_init fw;
     getParam := getParam fw;
     gridManager_init := gridManager_init fw;
     elements := elements fw;
     numDofs := numDofs fw;
     bBoxx := bBoxx fw;
     GridView_dimension := GridView_dimension fw;
     applyInitialSolution := applyInitialSolution fw;
     GridVariables := GridVariables fw;
     gv_init := gv_init fw;
     gv_update := gv_update fw;
     gv_advanceTimeStep := gv_advanceTimeStep fw;
     TimeLoop := TimeLoop fw;
     tl_new := tl_new fw;
     tl_setMaxTimeStepSize := tl_setMaxTimeStepSize fw;
     tl_start := tl_start fw;
     tl_advanceTimeStep := tl_advanceTimeStep fw;
     tl_setTimeStepSize := tl_setTimeStepSize fw;
     tl_time := tl_time fw;
     tl_timeStepSize := tl_timeStepSize fw;
     tl_finished := tl_finished fw;
     NewtonSolver := NewtonSolver fw;
     newton_new := newton_new fw;
     newton_solve := fun _ _ _ _ _ => inl DumuxNumericalProblem;
     suggestTimeStepSize := suggestTimeStepSize fw;
     newton_solve_stationary := fun _ _ _ => inl DumuxNumericalProblem |}.

(** A substrate configured for three dimensions. *)
Definition substrate_3d (p0 : Stub.StubPrecice) : SolverInterface :=
  {| PState := Stub.StubPrecice;
     configured := p0;
     getDimensions := fun _ => 3%Z;
     getMeshID := fun _ => 0%Z;
     setMeshVertices := fun _ n _ p => (map Z.of_nat (seq 0 n), p);
     getDataID := fun _ _ => 0%Z;
     initialize := fun p => (hd 0 (Stub.windows p), p);
     initializeData := fun p => p;
     isActionRequired := Stub.p_isActionRequired;
     fulfilledAction := Stub.p_fulfilledAction;
     advance := Stub.p_advance;
     isCouplingOngoing := fun p => negb (Nat.eqb (List.length (Stub.windows p)) 0);
     finalize := fun p => p |}.

(** A run whose end time is the start time: the time loop is finished
    before the first step. *)
Definition finished_setup : Stub.Setup :=
  {| Stub.s_elements := Stub.two_cells; Stub.s_bBoxx := [2; 1];
     Stub.s_tEnd := 0; Stub.s_maxDt := 1; Stub.s_dtInitial := 1 # 10;
     Stub.s_newtonSteps := 10 |}.

(** Two triangles of the box scheme sharing the edge between degrees of
    freedom 1 and 2, with the analytical solution
    [(u, v, p) = (x, y, x + y)]. *)
Definition two_triangles : list (list Scv) :=
  [ [ {| dofIndex := 0; dofPosition := [0; 0]; volume := 1 # 6 |};
      {| dofIndex := 1; dofPosition := [1; 0]; volume := 1 # 6 |};
      {| dofIndex := 2; dofPosition := [0; 1]; volume := 1 # 6 |} ];
    [ {| dofIndex := 1; dofPosition := [1; 0]; volume := 1 # 6 |};
      {| dofIndex := 3; dofPosition := [1; 1]; volume := 1 # 6 |};
      {| dofIndex := 2; dofPosition := [0; 1]; volume := 1 # 6 |} ] ].

Definition linear_solution (pos : list Scalar) : list Scalar :=
  [nth 0 pos 0; nth 1 pos 0; Qred (nth 0 pos 0 + nth 1 pos 0)].

Definition sample_params (name : string) : option Scalar :=
  if String.eqb name "Darcy.SpatialParams.Permeability" then Some (1 # 1000000)
  else if String.eqb name "Darcy.SpatialParams.Porosity" then Some (4 # 10)
  else if String.eqb name "Darcy.SpatialParams.AlphaBeaversJoseph" then Some 1
  else None.

(** * Facts *)

(** ** [std::max] *)

Lemma std_max_ge_l (a b : Scalar) : a <= std_max a b.
Proof.
  unfold std_max. destruct (Qle_bool b a) eqn:E.
  - apply Qle_refl.
  - destruct (Qlt_le_dec a b) as [L | L].
    + apply Qlt_le_weak, L.
    + apply Qle_bool_iff in L. congruence.
Qed.

Lemma std_max_ge_r (a b : Scalar) : b <= std_max a b.
Proof.
  unfold std_max. destruct (Qle_bool b a) eqn:E.
  - apply Qle_bool_iff, E.
  - apply Qle_refl.
Qed.

Lemma std_max_cases (a b : Scalar) : std_max a b = a \/ std_max a b = b.
Proof. unfold std_max. destruct (Qle_bool b a); auto. Qed.

(** ** Lists of events *)

(** An event that is not [x] cannot be where [x] is found. *)
Lemma split_at_last (A : Type) (pre post l : list A) (x a b : A) :
  pre ++ x :: post = l ++ [a; b] ->
  (forall y, In y l -> y <> x) -> b <> x ->
  x = a /\ pre = l /\ post = [b].
Proof.
  revert pre. induction l as [| y l IH]; intros pre E Hl Hb.
  - destruct pre as [| p pre]; simpl in E.
    + injection E as E1 E2. auto.
    + injection E as E1 E2.
      destruct pre as [| q pre]; simpl in E2.
      * injection E2 as E2 E3. congruence.
      * injection E2 as E2 E3. destruct pre; discriminate.
  - destruct pre as [| p pre]; simpl in E.
    + injection E as E1 E2. exfalso. apply (Hl x); simpl; auto.
    + injection E as E1 E2.
      destruct (IH pre E2) as (Ha & Hp & Hq); auto.
      * intros z Hz. apply Hl. simpl; auto.
      * subst. auto.
Qed.

Lemma split_at_last2 (A : Type) (pre post l1 l2 : list A) (x a b : A) :
  pre ++ x :: post = l1 ++ l2 ++ [a; b] ->
  (forall y, In y (l1 ++ l2) -> y <> x) -> b <> x ->
  x = a /\ pre = l1 ++ l2 /\ post = [b].
Proof. rewrite app_assoc. apply split_at_last. Qed.

Lemma not_in_all (A : Type) (pre post l : list A) (x : A) :
  pre ++ x :: post = l -> (forall y, In y l -> y <> x) -> False.
Proof.
  intros E H. apply (H x); [| reflexivity].
  rewrite <- E. apply in_or_app. right. simpl. auto.
Qed.

Lemma vtk_frames_app (a b : list Event) :
  vtk_frames (a ++ b) = (vtk_frames a + vtk_frames b)%nat.
Proof. unfold vtk_frames. rewrite filter_app, length_app. reflexivity. Qed.

Lemma accepted_iterations_app (a b : list Event) :
  accepted_iterations (a ++ b) = (accepted_iterations a + accepted_iterations b)%nat.
Proof. unfold accepted_iterations. rewrite filter_app, length_app. reflexivity. Qed.

Lemma rollback_iterations_app (a b : list Event) :
  rollback_iterations (a ++ b) = (rollback_iterations a + rollback_iterations b)%nat.
Proof. unfold rollback_iterations. rewrite filter_app, length_app. reflexivity. Qed.

Lemma ev_checkpoint_counts (wc : bool) :
  vtk_frames (ev_checkpoint wc) = 0%nat /\
  accepted_iterations (ev_checkpoint wc) = 0%nat /\
  rollback_iterations (ev_checkpoint wc) = 0%nat.
Proof. destruct wc; repeat split; reflexivity. Qed.

Lemma ev_checkpoint_no_advance (wc : bool) (used next : Scalar) (y : Event) :
  In y (ev_checkpoint wc) -> y <> EvAdvance used next.
Proof.
  destruct wc; simpl; intros H;
    repeat (destruct H as [H | H]; [subst; discriminate |]); contradiction.
Qed.

(** ** Symbolic execution of the loop body *)

Section BodyFacts.

Variable fw : Framework.
Variable pc : SolverInterface.

Ltac run :=
  unfold loop_body, write_checkpoint_block, solve, rollback_branch,
    accept_branch, loop_condition, bind, emit, ret, throw, log,
    precice_isActionRequired, precice_fulfilledAction, precice_advance,
    precice_isCouplingOngoing; simpl.

Lemma loop_body_inv (v : Vars fw) (w : World pc) (r : Result (Vars fw)) (w' : World pc) :
  loop_body v w = (r, w') ->
  let wc := isActionRequired pc writeCheckpoint (precice w) in
  let cp := if wc then sol v else sol_checkpoint v in
  let p1 := if wc then fulfilledAction pc writeCheckpoint (precice w) else precice w in
  let ev1 := ev_checkpoint wc ++ [EvSetPreviousSolution (solOld v); EvSolve (sol v)] in
  match newton_solve fw (nonLinearSolver v) (solOld v)
          (solidEnergyGridVariables v) (sol v) (timeLoop v) with
  | inl e => r = Throw e /\ precice w' = p1 /\ trace w' = trace w ++ ev1
  | inr (ns, sol1, gv1, tl1) =>
      if isActionRequired pc readCheckpoint p1 then
        r = Ok (Build_Vars cp sol1 cp
                  (gv_update fw (gv_advanceTimeStep fw gv1) cp) tl1 ns) /\
        precice w' = fulfilledAction pc writeCheckpoint p1 /\
        trace w' = trace w ++ ev1 ++
          [EvGridVariablesAdvance; EvIsActionRequired readCheckpoint true;
           EvGridVariablesUpdate cp; EvFulfilledAction writeCheckpoint]
      else
        let tl2 := tl_advanceTimeStep fw tl1 in
        let used := tl_timeStepSize fw tl2 in
        let preciceDt := fst (advance pc used p1) in
        let dt := suggestTimeStepSize fw ns (std_max preciceDt used) in
        r = Ok (Build_Vars sol1 sol1 cp (gv_advanceTimeStep fw gv1)
                  (tl_setTimeStepSize fw tl2 dt) ns) /\
        precice w' = snd (advance pc used p1) /\
        trace w' = trace w ++ ev1 ++
          [EvGridVariablesAdvance; EvIsActionRequired readCheckpoint false;
           EvTimeLoopAdvance; EvVtkWrite (tl_time fw tl2); EvReportTimeStep;
           EvAdvance used preciceDt; EvSetTimeStepSize dt]
  end.
Proof.
  run. unfold ev_checkpoint.
  destruct (isActionRequired pc writeCheckpoint (precice w)); simpl;
    (destruct (newton_solve fw (nonLinearSolver v) (solOld v)
                 (solidEnergyGridVariables v) (sol v) (timeLoop v))
       as [e | [[[ns sol1] gv1] tl1]]; simpl;
     [ intros H; inversion H; subst; simpl;
       repeat rewrite <- app_assoc; simpl; auto
     | match goal with
       | |- context [isActionRequired pc readCheckpoint ?p] =>
           destruct (isActionRequired pc readCheckpoint p); simpl
       end;
       [ intros H; inversion H; subst; simpl;
         repeat rewrite <- app_assoc; simpl; auto
       | match goal with
         | |- context [advance pc ?d ?p] => destruct (advance pc d p) as [next p']; simpl
         end;
         intros H; inversion H; subst; simpl;
         repeat rewrite <- app_assoc; simpl; auto ] ]).
Qed.

(** A completed execution of the body is a rollback or an acceptance. *)
Lemma loop_body_ok (v v' : Vars fw) (w w' : World pc) :
  loop_body v w = (Ok v', w') ->
  exists (wc : bool) (ns : NewtonSolver fw) (sol1 : SolutionVector)
         (gv1 : GridVariables fw) (tl1 : TimeLoop fw),
    newton_solve fw (nonLinearSolver v) (solOld v)
      (solidEnergyGridVariables v) (sol v) (timeLoop v) = inr (ns, sol1, gv1, tl1) /\
    let cp := if wc then sol v else sol_checkpoint v in
    let ev1 := ev_checkpoint wc ++ [EvSetPreviousSolution (solOld v); EvSolve (sol v)] in
    (v' = Build_Vars cp sol1 cp
            (gv_update fw (gv_advanceTimeStep fw gv1) cp) tl1 ns /\
     trace w' = trace w ++ ev1 ++
       [EvGridVariablesAdvance; EvIsActionRequired readCheckpoint true;
        EvGridVariablesUpdate cp; EvFulfilledAction writeCheckpoint])
    \/
    (exists preciceDt,
       let tl2 := tl_advanceTimeStep fw tl1 in
       let used := tl_timeStepSize fw tl2 in
       let dt := suggestTimeStepSize fw ns (std_max preciceDt used) in
       v' = Build_Vars sol1 sol1 cp (gv_advanceTimeStep fw gv1)
              (tl_setTimeStepSize fw tl2 dt) ns /\
       trace w' = trace w ++ ev1 ++
         [EvGridVariablesAdvance; EvIsActionRequired readCheckpoint false;
          EvTimeLoopAdvance; EvVtkWrite (tl_time fw tl2); EvReportTimeStep;
          EvAdvance used preciceDt; EvSetTimeStepSize dt]).
Proof.
  intros H. apply loop_body_inv in H. cbv zeta in H.
  exists (isActionRequired pc writeCheckpoint (precice w)).
  destruct (newton_solve fw (nonLinearSolver v) (solOld v)
              (solidEnergyGridVariables v) (sol v) (timeLoop v))
    as [e | [[[ns sol1] gv1] tl1]].
  - destruct H as [H _]. discriminate.
  - exists ns, sol1, gv1, tl1. split; [reflexivity |]. cbv zeta.
    match type of H with
    | if ?c then _ else _ => destruct c
    end.
    + left. destruct H as (Hr & _ & Ht). injection Hr as Hr. auto.
    + right. destruct H as (Hr & _ & Ht). injection Hr as Hr.
      eexists. split; [exact Hr | exact Ht].
Qed.

Ltac no_such_event :=
  let y := fresh "y" in
  let Hy := fresh "Hy" in
  intros y Hy; apply in_app_or in Hy; destruct Hy as [Hy | Hy];
  [ first [ eapply ev_checkpoint_no_advance; exact Hy ]
  | simpl in Hy;
    repeat (destruct Hy as [Hy | Hy]; [subst y; discriminate |]);
    contradiction ].

(** C1, as amended.  An iteration that calls [advance(used)] and gets
    [preciceDt] is an accepted one, and its next and last call is
    [setTimeStepSize(suggestTimeStepSize(newDt))] with
    [newDt = max(preciceDt, used)], where [used] is the step the time
    loop held; [newDt] is at least [preciceDt] and at least [used].
    [preciceDt] bounds the hint from below, not the installed step from
    above. *)
Theorem advance_then_suggested_step
    (v v' : Vars fw) (w w' : World pc)
    (pre post : list Event) (used preciceDt : Scalar) :
  loop_body v w = (Ok v', w') ->
  trace w' = trace w ++ pre ++ EvAdvance used preciceDt :: post ->
  let newDt := std_max preciceDt used in
  let dt := suggestTimeStepSize fw (nonLinearSolver v') newDt in
  In (EvIsActionRequired readCheckpoint false) pre /\
  post = [EvSetTimeStepSize dt] /\
  preciceDt <= newDt /\ used <= newDt /\
  exists tl, used = tl_timeStepSize fw tl /\
             timeLoop v' = tl_setTimeStepSize fw tl dt.
Proof.
  intros H E. apply loop_body_ok in H.
  destruct H as (wc & ns & sol1 & gv1 & tl1 & _ & H). cbv zeta in H.
  destruct H as [(Hv & Ht) | (p & Hv & Ht)]; rewrite Ht in E;
    apply app_inv_head in E; symmetry in E;
    rewrite <- app_assoc in E; cbn [app] in E.
  - exfalso. eapply not_in_all; [exact E |]. no_such_event.
  - match type of E with
    | _ = _ ++ [?a; ?b; ?c; ?d; ?e; ?f; ?g; ?h; ?i] =>
        apply (split_at_last2 pre post (ev_checkpoint wc) [a; b; c; d; e; f; g]) in E
    end.
    + destruct E as (Ea & Epre & Ep). injection Ea as Eu Epd.
      subst used preciceDt pre.
      subst v'. split; [apply in_or_app; right; simpl; auto 10 |].
      simpl. repeat split.
      * exact Ep.
      * apply std_max_ge_l.
      * apply std_max_ge_r.
      * exists (tl_advanceTimeStep fw tl1). split; reflexivity.
    + no_such_event.
    + discriminate.
Qed.

Ltac count_events :=
  repeat rewrite vtk_frames_app;
  repeat rewrite accepted_iterations_app;
  repeat rewrite rollback_iterations_app;
  repeat match goal with
         | |- context [ev_checkpoint ?wc] =>
             let H := fresh "Hc" in
             pose proof (ev_checkpoint_counts wc) as H;
             destruct H as (? & ? & ?);
             generalize dependent (ev_checkpoint wc); intros
         end;
  repeat match goal with
         | H : vtk_frames _ = _ |- _ => rewrite H; clear H
         | H : accepted_iterations _ = _ |- _ => rewrite H; clear H
         | H : rollback_iterations _ = _ |- _ => rewrite H; clear H
         end;
  try reflexivity.

(** Frames and acceptances go together in every execution of the body,
    also in one that ends in an exception. *)
Lemma loop_body_counts (v : Vars fw) (w w' : World pc) (r : Result (Vars fw)) :
  loop_body v w = (r, w') ->
  exists evs, trace w' = trace w ++ evs /\
              vtk_frames evs = accepted_iterations evs.
Proof.
  intros H. apply loop_body_inv in H. cbv zeta in H.
  destruct (newton_solve fw (nonLinearSolver v) (solOld v)
              (solidEnergyGridVariables v) (sol v) (timeLoop v))
    as [e | [[[ns sol1] gv1] tl1]].
  - destruct H as (_ & _ & Ht). eexists. split; [exact Ht |]. count_events.
  - match type of H with
    | if ?c then _ else _ => destruct c
    end; destruct H as (_ & _ & Ht); eexists; (split; [exact Ht |]); count_events.
Qed.

(** C4.  In every completed iteration of the driver loop, the number of
    VTK frames written equals the number of accepted-iteration answers
    (0 or 1), and the iteration is either accepted or rolled back: a frame
    is written iff the readCheckpoint query answered false, and none on a
    rollback. *)
Theorem vtk_frame_iff_accepted (v v' : Vars fw) (w w' : World pc) :
  loop_body v w = (Ok v', w') ->
  exists evs,
    trace w' = trace w ++ evs /\
    vtk_frames evs = accepted_iterations evs /\
    (accepted_iterations evs + rollback_iterations evs = 1)%nat /\
    (vtk_frames evs = 1%nat <-> In (EvIsActionRequired readCheckpoint false) evs) /\
    (In (EvIsActionRequired readCheckpoint true) evs -> vtk_frames evs = 0%nat).
Proof.
  intros H. apply loop_body_ok in H.
  destruct H as (wc & ns & sol1 & gv1 & tl1 & _ & H). cbv zeta in H.
  destruct H as [(Hv & Ht) | (p & Hv & Ht)]; eexists; (split; [exact Ht |]).
  - assert (F : vtk_frames
                  ((ev_checkpoint wc ++
                    [EvSetPreviousSolution (solOld v); EvSolve (sol v)]) ++
                   [EvGridVariablesAdvance; EvIsActionRequired readCheckpoint true;
                    EvGridVariablesUpdate (if wc then sol v else sol_checkpoint v);
                    EvFulfilledAction writeCheckpoint]) = 0%nat)
      by count_events.
    split; [count_events |]. split; [count_events |].
    split; [| intros _; exact F].
    rewrite F. split; [discriminate |].
    intros Hin. exfalso.
    apply in_app_or in Hin. destruct Hin as [Hin | Hin];
      [apply in_app_or in Hin; destruct Hin as [Hin | Hin] |].
    + destruct wc; simpl in Hin;
        repeat (destruct Hin as [Hin | Hin]; [discriminate |]); contradiction.
    + simpl in Hin.
      repeat (destruct Hin as [Hin | Hin]; [discriminate |]); contradiction.
    + simpl in Hin.
      repeat (destruct Hin as [Hin | Hin]; [discriminate |]); contradiction.
  - match goal with
    | |- vtk_frames ?l = _ /\ _ =>
        assert (F : vtk_frames l = 1%nat) by count_events
    end.
    split; [count_events |]. split; [count_events |].
    split.
    + rewrite F. split; [| reflexivity]. intros _.
      apply in_or_app. right. simpl. auto.
    + intros Hin. exfalso.
      apply in_app_or in Hin. destruct Hin as [Hin | Hin];
        [apply in_app_or in Hin; destruct Hin as [Hin | Hin] |].
      * destruct wc; simpl in Hin;
          repeat (destruct Hin as [Hin | Hin]; [discriminate |]); contradiction.
      * simpl in Hin.
        repeat (destruct Hin as [Hin | Hin]; [discriminate |]); contradiction.
      * simpl in Hin.
        repeat (destruct Hin as [Hin | Hin]; [discriminate |]); contradiction.
Qed.

Ltac not_among :=
  let Hin := fresh "Hin" in
  intros Hin;
  match goal with
  | wc : bool |- _ => destruct wc
  end;
  unfold ev_checkpoint in Hin; simpl in Hin;
  repeat (destruct Hin as [Hin | Hin]; [discriminate |]); contradiction.

(** On an iteration whose readCheckpoint query answers true, the
    solution is restored first, the grid variables are updated with it,
    and the last call is the acknowledgment; but the action acknowledged
    is writeCheckpoint, and readCheckpoint is not acknowledged anywhere in
    the iteration. *)
Lemma rollback_acknowledges_write_checkpoint
    (v v' : Vars fw) (w w' : World pc) (evs : list Event) :
  loop_body v w = (Ok v', w') ->
  trace w' = trace w ++ evs ->
  In (EvIsActionRequired readCheckpoint true) evs ->
  (exists pre,
     evs = pre ++ [EvIsActionRequired readCheckpoint true;
                   EvGridVariablesUpdate (sol v');
                   EvFulfilledAction writeCheckpoint]) /\
  sol v' = sol_checkpoint v' /\
  ~ In (EvFulfilledAction readCheckpoint) evs.
Proof.
  intros H E Hq. apply loop_body_ok in H.
  destruct H as (wc & ns & sol1 & gv1 & tl1 & _ & H). cbv zeta in H.
  destruct H as [(Hv & Ht) | (p & Hv & Ht)]; rewrite Ht in E;
    apply app_inv_head in E; subst evs.
  - subst v'. simpl. split; [| split].
    + exists ((ev_checkpoint wc ++
               [EvSetPreviousSolution (solOld v); EvSolve (sol v)]) ++
              [EvGridVariablesAdvance]).
      rewrite <- (app_assoc _ [EvGridVariablesAdvance]). reflexivity.
    + reflexivity.
    + clear Hq. not_among.
  - exfalso. revert Hq. not_among.
Qed.

(** [solOld = sol] runs before the readCheckpoint query: after every
    completed iteration, rolled back or accepted, [solOld] is the solution
    the Newton solve of that iteration returned. *)
Lemma solOld_is_last_solve (v v' : Vars fw) (w w' : World pc) :
  loop_body v w = (Ok v', w') ->
  exists ns sol1 gv1 tl1,
    newton_solve fw (nonLinearSolver v) (solOld v)
      (solidEnergyGridVariables v) (sol v) (timeLoop v) = inr (ns, sol1, gv1, tl1) /\
    solOld v' = sol1.
Proof.
  intros H. apply loop_body_ok in H.
  destruct H as (wc & ns & sol1 & gv1 & tl1 & Hs & H). cbv zeta in H.
  exists ns, sol1, gv1, tl1. split; [exact Hs |].
  destruct H as [(Hv & _) | (p & Hv & _)]; subst v'; reflexivity.
Qed.

(** The restore of the rollback branch, run twice in a row. *)
Lemma rollback_branch_twice (v : Vars fw) (w : World pc) :
  exists v1 w1 v2 w2,
    rollback_branch v w = (Ok v1, w1) /\
    rollback_branch v1 w1 = (Ok v2, w2) /\
    sol v1 = sol_checkpoint v /\
    sol_checkpoint v1 = sol_checkpoint v /\
    sol v2 = sol v1 /\
    sol_checkpoint v2 = sol_checkpoint v1.
Proof.
  unfold rollback_branch, bind, emit, ret, precice_fulfilledAction, log; simpl.
  do 4 eexists. repeat split.
Qed.

(** A rolled-back iteration ends with the solution equal to the
    checkpoint; if it did not write the checkpoint, the checkpoint is the
    one it started with. *)
Lemma rollback_iteration (v v' : Vars fw) (w w' : World pc) (evs : list Event) :
  loop_body v w = (Ok v', w') ->
  trace w' = trace w ++ evs ->
  In (EvIsActionRequired readCheckpoint true) evs ->
  sol v' = sol_checkpoint v' /\
  (In (EvIsActionRequired writeCheckpoint false) evs ->
   sol_checkpoint v' = sol_checkpoint v).
Proof.
  intros H E Hq. apply loop_body_ok in H.
  destruct H as (wc & ns & sol1 & gv1 & tl1 & _ & H). cbv zeta in H.
  destruct H as [(Hv & Ht) | (p & Hv & Ht)]; rewrite Ht in E;
    apply app_inv_head in E; subst evs.
  - subst v'. simpl. split; [reflexivity |].
    destruct wc; [| reflexivity].
    intros Hin. exfalso. unfold ev_checkpoint in Hin. simpl in Hin.
    repeat (destruct Hin as [Hin | Hin]; [discriminate Hin |]). contradiction.
  - exfalso. revert Hq. not_among.
Qed.

(** C7.  Restoring copies the checkpoint into the solution and leaves the
    checkpoint as it was, so a second restore with no save in between
    yields the same solution and the same checkpoint.  This holds for the
    rollback branch run twice in a row, and for two rollback iterations of
    the loop in a row when the second does not write the checkpoint,
    whatever the solve in between did to the solution. *)
Theorem restore_is_idempotent :
  (forall (v : Vars fw) (w : World pc),
     exists v1 w1 v2 w2,
       rollback_branch v w = (Ok v1, w1) /\
       rollback_branch v1 w1 = (Ok v2, w2) /\
       sol v1 = sol_checkpoint v /\
       sol_checkpoint v1 = sol_checkpoint v /\
       sol v2 = sol v1 /\
       sol_checkpoint v2 = sol_checkpoint v1)
  /\
  (forall (v v1 v2 : Vars fw) (w w1 w2 : World pc) (e1 e2 : list Event),
     loop_body v w = (Ok v1, w1) ->
     loop_body v1 w1 = (Ok v2, w2) ->
     trace w1 = trace w ++ e1 ->
     trace w2 = trace w1 ++ e2 ->
     In (EvIsActionRequired readCheckpoint true) e1 ->
     In (EvIsActionRequired readCheckpoint true) e2 ->
     In (EvIsActionRequired writeCheckpoint false) e2 ->
     sol v1 = sol_checkpoint v1 /\
     sol v2 = sol v1 /\
     sol_checkpoint v2 = sol_checkpoint v1).
Proof.
  split; [apply rollback_branch_twice |].
  intros v v1 v2 w w1 w2 e1 e2 H1 H2 E1 E2 R1 R2 W2.
  destruct (@rollback_iteration v v1 w w1 e1 H1 E1 R1) as (S1 & _).
  destruct (@rollback_iteration v1 v2 w1 w2 e2 H2 E2 R2) as (S2 & C2).
  specialize (C2 W2). split; [exact S1 |]. split; [| exact C2].
  rewrite S2, C2. symmetry. exact S1.
Qed.

End BodyFacts.

(** ** The loop *)

Section LoopFacts.

Variable fw : Framework.
Variable pc : SolverInterface.

(** What a round reports is the loop condition of the source, evaluated
    after the body. *)
Lemma round_inv (v v' : Vars fw) (w w' : World pc) (again : bool) :
  round v w = (Ok (again, v'), w') ->
  exists wb,
    loop_body v w = (Ok v', wb) /\
    precice w' = precice wb /\
    again = negb (tl_finished fw (timeLoop v')) && isCouplingOngoing pc (precice wb) /\
    trace w' = trace wb ++
      (if tl_finished fw (timeLoop v') then []
       else [EvIsCouplingOngoing (isCouplingOngoing pc (precice wb))]).
Proof.
  unfold round, bind.
  destruct (loop_body v w) as [[vb | e |] wb]; try discriminate.
  unfold loop_condition, ret, precice_isCouplingOngoing, log.
  destruct (tl_finished fw (timeLoop vb)) eqn:F; simpl; intros H;
    injection H as Ha Hv Hw; exists wb; rewrite <- Hv, <- Hw, <- Ha, F; simpl.
  - rewrite app_nil_r. auto.
  - auto.
Qed.

(** One unfolding of the do-while loop. *)
Lemma do_while_S (fuel : nat) (v : Vars fw) (w : World pc) :
  do_while (S fuel) v w =
  match round v w with
  | (Ok (true, v'), w') => do_while fuel v' w'
  | (Ok (false, v'), w') => (Ok v', w')
  | (Throw e, w') => (Throw e, w')
  | (OutOfFuel, w') => (OutOfFuel, w')
  end.
Proof.
  simpl. unfold round, bind.
  destruct (loop_body v w) as [[vb | e |] wb]; try reflexivity.
  destruct (loop_condition vb wb) as [[[|] | e |] wc]; reflexivity.
Qed.

Lemma rounds_S (n : nat) (v : Vars fw) (w : World pc) :
  rounds (S n) v w =
  match round v w with
  | (Ok (_, v'), w') => rounds n v' w'
  | (Throw e, w') => (Throw e, w')
  | (OutOfFuel, w') => (OutOfFuel, w')
  end.
Proof.
  simpl. unfold bind at 1.
  destruct (round v w) as [[[b vb] | e |] wb]; reflexivity.
Qed.

Lemma do_while_exits_iff (fuel : nat) :
  forall (v v' : Vars fw) (w w' : World pc),
    do_while fuel v w = (Ok v', w') <->
    exists n, (n < fuel)%nat /\
      rounds n v w = (Ok (false, v'), w') /\
      forall m, (m < n)%nat -> exists vm wm, rounds m v w = (Ok (true, vm), wm).
Proof.
  induction fuel as [| fuel IH]; intros v v' w w'.
  - simpl. split; [discriminate |]. intros (n & Hn & _). lia.
  - rewrite do_while_S. split.
    + destruct (round v w) as [[[[|] vb] | e |] wb] eqn:R; try discriminate.
      * intros H. apply IH in H. destruct H as (n & Hn & Hr & Hm).
        exists (S n). split; [lia |]. split.
        -- rewrite rounds_S, R. exact Hr.
        -- intros [| m] Hlt.
           ++ exists vb, wb. exact R.
           ++ rewrite rounds_S, R. apply Hm. lia.
      * intros H. injection H as Hv Hw. subst.
        exists 0%nat. split; [lia |]. split; [exact R |]. intros m Hlt. lia.
    + intros (n & Hn & Hr & Hm). destruct n as [| n].
      * simpl in Hr. rewrite Hr. reflexivity.
      * destruct (Hm 0%nat) as (v0 & w0 & H0); [lia |]. simpl in H0.
        rewrite rounds_S in Hr. rewrite H0 in Hr. rewrite H0.
        apply IH. exists n. split; [lia |]. split; [exact Hr |].
        intros m Hlt. specialize (Hm (S m)). rewrite rounds_S, H0 in Hm.
        apply Hm. lia.
Qed.

(** C8.  The do-while loop returns after the first round whose condition
    [!timeLoop->finished() && precice.isCouplingOngoing()] is false, and
    after no other: it exits with [v'] exactly when some round [n] ends
    with the condition false while every earlier round ended with it
    true; and the condition of a round is false exactly when the time
    loop is finished or the coupling is no longer ongoing.  The body is
    entered once before the condition is first evaluated. *)
Theorem loop_exits_at_first_stop (fuel : nat) (v v' : Vars fw) (w w' : World pc) :
  (do_while fuel v w = (Ok v', w') <->
   exists n, (n < fuel)%nat /\
     rounds n v w = (Ok (false, v'), w') /\
     forall m, (m < n)%nat -> exists vm wm, rounds m v w = (Ok (true, vm), wm))
  /\
  (forall (u u' : Vars fw) (x x' : World pc) (again : bool),
     round u x = (Ok (again, u'), x') ->
     exists xb,
       loop_body u x = (Ok u', xb) /\
       (again = false <->
        tl_finished fw (timeLoop u') = true \/
        isCouplingOngoing pc (precice xb) = false)).
Proof.
  split; [apply do_while_exits_iff |].
  intros u u' x x' again R. apply round_inv in R.
  destruct R as (xb & Hb & _ & Ha & _). exists xb. split; [exact Hb |].
  subst again.
  destruct (tl_finished fw (timeLoop u')), (isCouplingOngoing pc (precice xb));
    simpl; intuition congruence.
Qed.

(** Frames and acceptances go together over the whole loop, however it
    ends. *)
Lemma do_while_counts (fuel : nat) :
  forall (v : Vars fw) (w w' : World pc) (r : Result (Vars fw)),
    do_while fuel v w = (r, w') ->
    exists evs, trace w' = trace w ++ evs /\
                vtk_frames evs = accepted_iterations evs.
Proof.
  induction fuel as [| fuel IH]; intros v w w' r.
  - simpl. intros H. injection H as _ Hw. subst. exists []. rewrite app_nil_r. auto.
  - simpl. unfold bind at 1.
    destruct (loop_body v w) as [[vb | e |] wb] eqn:B;
      destruct (loop_body_counts _ _ B) as (evb & Eb & Cb).
    + unfold bind.
      assert (Hc : exists evc, forall res wc,
                 loop_condition vb wb = (res, wc) ->
                 trace wc = trace wb ++ evc /\ vtk_frames evc = 0%nat /\
                 accepted_iterations evc = 0%nat).
      { unfold loop_condition, ret, precice_isCouplingOngoing, log.
        destruct (tl_finished fw (timeLoop vb)).
        - exists []. intros res wc H. injection H as _ Hw. subst.
          rewrite app_nil_r. auto.
        - eexists. intros res wc H. injection H as _ Hw. subst. simpl. auto. }
      destruct Hc as (evc & Hc).
      destruct (loop_condition vb wb) as [[[|] | e |] wc] eqn:C;
        destruct (Hc _ _ eq_refl) as (Ec & Vc & Ac).
      * intros H. apply IH in H. destruct H as (evr & Er & Cr).
        exists (evb ++ evc ++ evr). split.
        -- rewrite Er, Ec, Eb. repeat rewrite <- app_assoc. reflexivity.
        -- repeat rewrite vtk_frames_app. repeat rewrite accepted_iterations_app. lia.
      * intros H. injection H as _ Hw. subst. exists (evb ++ evc). split.
        -- rewrite Ec, Eb. rewrite <- app_assoc. reflexivity.
        -- rewrite vtk_frames_app, accepted_iterations_app. lia.
      * intros H. injection H as _ Hw. subst. exists (evb ++ evc). split.
        -- rewrite Ec, Eb. rewrite <- app_assoc. reflexivity.
        -- rewrite vtk_frames_app, accepted_iterations_app. lia.
      * intros H. injection H as _ Hw. subst. exists (evb ++ evc). split.
        -- rewrite Ec, Eb. rewrite <- app_assoc. reflexivity.
        -- rewrite vtk_frames_app, accepted_iterations_app. lia.
    + intros H. injection H as _ Hw. subst. exists evb. auto.
    + intros H. injection H as _ Hw. subst. exists evb. auto.
Qed.

End LoopFacts.

(** ** Startup, [main] and its exit code *)

Section MainFacts.

Variable fw : Framework.
Variable pc : SolverInterface.

(** With no matching face the traversal collects nothing. *)
Lemma extract_interface_none :
  no_face_matches fw -> extract_interface (elements fw) (bBoxx fw) = ([], []).
Proof.
  unfold no_face_matches, extract_interface.
  generalize (elements fw) as els. intros els H.
  induction els as [| el els IH]; [reflexivity |].
  simpl.
  assert (E : visit_element (bBoxx fw) ([], []) el = ([], [])).
  { unfold visit_element.
    assert (Hel : forall scvf, In scvf el -> on_interface (bBoxx fw) scvf = false)
      by (intros scvf Hs; apply (H el); simpl; auto).
    clear H IH. induction el as [| f el IHel]; [reflexivity |].
    simpl. unfold visit_scvf at 2. rewrite (Hel f) by (simpl; auto).
    apply IHel. intros scvf Hs. apply Hel. simpl; auto. }
  rewrite E. apply IH. intros element scvf He Hs. apply (H element); simpl; auto.
Qed.

(** Symbolic execution of the startup sequence. *)
Lemma startup_inv (r : Result (Vars fw)) (w : World pc) :
  startup fw pc (world0 pc) = (r, w) ->
  match Parameters_init fw, gridManager_init fw with
  | Some e, _ => r = Throw e /\ trace w = []
  | None, Some e => r = Throw e /\ trace w = []
  | None, None =>
      let dim := getDimensions pc (configured pc) in
      if negb (Z.eqb dim (GridView_dimension fw))
      then r = Throw DuneInvalidStateException /\ trace w = []
      else
        let meshId := getMeshID pc "SolidEnergyMesh" in
        let coords := fst (extract_interface (elements fw) (bBoxx fw)) in
        let n := vertex_count coords dim in
        let p1 := snd (setMeshVertices pc meshId n coords (configured pc)) in
        let preciceDt := fst (initialize pc p1) in
        let sol1 := applyInitialSolution fw (repeat 0 (numDofs fw)) in
        let ev := [EvSetMeshVertices meshId n coords; EvInitialize preciceDt;
                   EvInitializeData; EvVtkWrite 0] in
        match getParam fw "TimeLoop.TEnd",
              getParam fw "TimeLoop.MaxTimeStepSize",
              getParam fw "TimeLoop.DtInitial" with
        | Some tEnd, Some maxDt, Some dt =>
            r = Ok (Build_Vars sol1 sol1 sol1 (gv_init fw sol1)
                      (tl_setMaxTimeStepSize fw
                         (tl_new fw 0 (std_max dt preciceDt) tEnd) maxDt)
                      (newton_new fw)) /\
            trace w = ev ++ [EvTimeLoopNew 0 (std_max dt preciceDt) tEnd;
                             EvSetMaxTimeStepSize maxDt]
        | _, _, _ => r = Throw DumuxParameterException /\ trace w = ev
        end
  end.
Proof.
  unfold startup, bind, may_throw, throw, ret, world0, param, emit, log,
    precice_setMeshVertices, precice_initialize, precice_initializeData.
  destruct (Parameters_init fw) as [e |]; simpl.
  { intros H. injection H as Hr Hw. subst. auto. }
  destruct (gridManager_init fw) as [e |]; simpl.
  { intros H. injection H as Hr Hw. subst. auto. }
  destruct (negb (getDimensions pc (configured pc) =? GridView_dimension fw)%Z); simpl.
  { intros H. injection H as Hr Hw. subst. auto. }
  destruct (setMeshVertices pc (getMeshID pc "SolidEnergyMesh")
              (vertex_count (fst (extract_interface (elements fw) (bBoxx fw)))
                 (getDimensions pc (configured pc)))
              (fst (extract_interface (elements fw) (bBoxx fw)))
              (configured pc)) as [ids p1]; simpl.
  destruct (initialize pc p1) as [preciceDt p2]; simpl.
  destruct (getParam fw "TimeLoop.TEnd") as [tEnd |]; simpl;
    [| intros H; injection H as Hr Hw; subst; auto].
  destruct (getParam fw "TimeLoop.MaxTimeStepSize") as [maxDt |]; simpl;
    [| intros H; injection H as Hr Hw; subst; auto].
  destruct (getParam fw "TimeLoop.DtInitial") as [dt |]; simpl;
    intros H; injection H as Hr Hw; subst; auto.
Qed.

(** The exit code is 0 only for a run that returned. *)
Lemma dispatch_main_handlers (e : ExceptionType) :
  dispatch main_handlers e =
  Some (match e with
        | DumuxParameterException => 1
        | DuneDGFException => 2
        | DuneException | DuneIOError | DuneInvalidStateException
        | DumuxNumericalProblem => 3
        | StdException => 4
        end)%Z.
Proof. destruct e; reflexivity. Qed.

Lemma main_returns_zero (fuel : nat) (tr : list Event) :
  main fw pc fuel = Some (0%Z, tr) ->
  exists w, main_body fw pc fuel (world0 pc) = (Ok tt, w) /\ tr = trace w.
Proof.
  unfold main. destruct (main_body fw pc fuel (world0 pc)) as [[[] | e |] w];
    unfold exit_code.
  - intros H. injection H as H. subst. eauto.
  - rewrite dispatch_main_handlers. destruct e; discriminate.
  - discriminate.
Qed.

(** A run of [main] that returns went through the whole startup, then
    through the loop. *)
Lemma main_body_ok (fuel : nat) (w : World pc) :
  main_body fw pc fuel (world0 pc) = (Ok tt, w) ->
  exists v ws evs,
    startup fw pc (world0 pc) = (Ok v, ws) /\
    trace w = trace ws ++ [EvTimeLoopStart] ++ evs ++
              [EvTimeLoopFinalize; EvPreciceFinalize] /\
    vtk_frames evs = accepted_iterations evs.
Proof.
  unfold main_body. unfold bind at 1.
  destruct (startup fw pc (world0 pc)) as [[v | e |] ws]; try discriminate.
  unfold bind at 1. unfold emit at 1. unfold bind at 1.
  match goal with
  | |- context [do_while fuel ?v0 ?w0] =>
      destruct (do_while fuel v0 w0) as [[vl | e |] wl] eqn:L; try discriminate;
      destruct (do_while_counts _ _ _ L) as (evs & El & Cl)
  end.
  unfold bind, emit, precice_finalize, ret, log; simpl.
  intros H. injection H as Hw. subst w. simpl.
  exists v, ws, evs. split; [reflexivity |]. split; [| exact Cl].
  rewrite El. simpl. repeat rewrite <- app_assoc. reflexivity.
Qed.

(** Whatever happens after it, the calls of the startup sequence open
    the trace of [main]. *)
Lemma main_body_extends_startup (fuel : nat) :
  exists rest,
    trace (snd (main_body fw pc fuel (world0 pc))) =
    trace (snd (startup fw pc (world0 pc))) ++ rest.
Proof.
  unfold main_body. unfold bind at 1.
  destruct (startup fw pc (world0 pc)) as [[v | e |] ws]; simpl;
    try (exists []; symmetry; apply app_nil_r).
  unfold bind at 1. unfold emit at 1. unfold bind at 1.
  match goal with
  | |- context [do_while fuel ?v0 ?w0] =>
      destruct (do_while fuel v0 w0) as [rl wl] eqn:L;
      destruct (do_while_counts _ _ _ L) as (evs & El & _)
  end.
  destruct rl as [vl | e |]; unfold bind, emit, precice_finalize, ret, log; simpl;
    rewrite El; simpl; repeat rewrite <- app_assoc; eexists; reflexivity.
Qed.

(** The calls of a startup sequence that completes. *)
Lemma startup_ok_trace (v : Vars fw) (w : World pc) :
  startup fw pc (world0 pc) = (Ok v, w) ->
  exists mesh dt0 dt tEnd maxDt,
    is_mesh mesh = true /\
    trace w = [mesh; EvInitialize dt0; EvInitializeData; EvVtkWrite 0;
               EvTimeLoopNew 0 dt tEnd; EvSetMaxTimeStepSize maxDt].
Proof.
  intros H. apply startup_inv in H.
  destruct (Parameters_init fw); [destruct H; discriminate |].
  destruct (gridManager_init fw); [destruct H; discriminate |].
  cbv zeta in H.
  destruct (negb (getDimensions pc (configured pc) =? GridView_dimension fw)%Z);
    [destruct H; discriminate |].
  destruct (getParam fw "TimeLoop.TEnd") as [tEnd |]; [| destruct H; discriminate].
  destruct (getParam fw "TimeLoop.MaxTimeStepSize") as [maxDt |];
    [| destruct H; discriminate].
  destruct (getParam fw "TimeLoop.DtInitial") as [dt |]; [| destruct H; discriminate].
  destruct H as (_ & Ht). do 5 eexists. split; [| exact Ht]. reflexivity.
Qed.

(** C6.  When the startup sequence completes, the time loop is
    constructed with start time 0 and the step
    [std::max(dt, preciceDt)], where [dt] is the parameter
    TimeLoop.DtInitial and [preciceDt] is what [initialize()] returned;
    that step is the larger of the two. *)
Theorem initial_dt_is_max (v : Vars fw) (w : World pc) :
  startup fw pc (world0 pc) = (Ok v, w) ->
  exists mesh userDtInitial preciceInitDt tEnd maxDt,
    getParam fw "TimeLoop.DtInitial" = Some userDtInitial /\
    trace w = [mesh; EvInitialize preciceInitDt; EvInitializeData; EvVtkWrite 0;
               EvTimeLoopNew 0 (std_max userDtInitial preciceInitDt) tEnd;
               EvSetMaxTimeStepSize maxDt] /\
    timeLoop v =
      tl_setMaxTimeStepSize fw
        (tl_new fw 0 (std_max userDtInitial preciceInitDt) tEnd) maxDt /\
    userDtInitial <= std_max userDtInitial preciceInitDt /\
    preciceInitDt <= std_max userDtInitial preciceInitDt /\
    (std_max userDtInitial preciceInitDt = userDtInitial \/
     std_max userDtInitial preciceInitDt = preciceInitDt).
Proof.
  intros H. apply startup_inv in H.
  destruct (Parameters_init fw); [destruct H; discriminate |].
  destruct (gridManager_init fw); [destruct H; discriminate |].
  cbv zeta in H.
  destruct (negb (getDimensions pc (configured pc) =? GridView_dimension fw)%Z);
    [destruct H; discriminate |].
  destruct (getParam fw "TimeLoop.TEnd") as [tEnd |]; [| destruct H; discriminate].
  destruct (getParam fw "TimeLoop.MaxTimeStepSize") as [maxDt |];
    [| destruct H; discriminate].
  destruct (getParam fw "TimeLoop.DtInitial") as [dt |]; [| destruct H; discriminate].
  destruct H as (Hr & Ht). injection Hr as Hr. subst v. simpl.
  do 5 eexists. split; [reflexivity |]. split; [exact Ht |].
  split; [reflexivity |].
  split; [apply std_max_ge_l |]. split; [apply std_max_ge_r |].
  apply std_max_cases.
Qed.

(** C9.  The exit code of [main] is 0 when its body returns; when the
    body throws, it is 1 for a Dumux::ParameterException, 2 for a
    Dune::DGFException, 3 for any other exception of the Dune hierarchy
    and 4 for anything else. *)
Theorem exit_codes (fuel : nat) :
  main fw pc fuel =
  match main_body fw pc fuel (world0 pc) with
  | (Ok _, w) => Some (0%Z, trace w)
  | (Throw e, w) =>
      Some (match e with
            | DumuxParameterException => 1
            | DuneDGFException => 2
            | DuneException | DuneIOError | DuneInvalidStateException
            | DumuxNumericalProblem => 3
            | StdException => 4
            end%Z, trace w)
  | (OutOfFuel, _) => None
  end.
Proof.
  unfold main. destruct (main_body fw pc fuel (world0 pc)) as [[[] | e |] w];
    unfold exit_code; try reflexivity.
  rewrite dispatch_main_handlers. reflexivity.
Qed.

(** C10, as amended.  In a run of the solid-energy driver that returns,
    the first frame is written at time 0 right after [initializeData],
    before the time loop is constructed, and every later frame belongs to
    an accepted iteration: the frames number one more than the accepted
    iterations.  The Darcy driver also writes its first frame at time 0,
    before its single solve, but it has no coupling loop: a run of it
    that returns has written exactly two frames (at 0 and at 1) and has
    queried no action, accepted no coupling iteration and called no
    [advance]. *)
Theorem initial_frame_then_one_per_accepted
    (fuel : nat) (tr : list Event) (argv : list string) :
  (main fw pc fuel = Some (0%Z, tr) ->
   exists mesh dt0 rest,
     tr = [mesh; EvInitialize dt0; EvInitializeData; EvVtkWrite 0] ++ rest /\
     is_mesh mesh = true /\
     vtk_frames rest = accepted_iterations rest /\
     vtk_frames tr = S (accepted_iterations tr))
  /\
  (forall w, darcy_main_body fw pc argv (world0 pc) = (Ok tt, w) ->
   (exists cfg s0 s1,
      trace w = [EvAnnounceSolver "Darcy" cfg; EvVtkWrite 0; EvSolve s0;
                 EvVtkWrite 1; EvPrintL2Error s1]) /\
   vtk_frames (trace w) = 2%nat /\
   accepted_iterations (trace w) = 0%nat /\
   rollback_iterations (trace w) = 0%nat /\
   calls is_advance (trace w) = 0%nat).
Proof.
  split.
  - intros H. apply main_returns_zero in H. destruct H as (w & Hb & Htr).
    apply main_body_ok in Hb. destruct Hb as (v & ws & evs & Hs & Ht & Hc).
    apply startup_ok_trace in Hs.
    destruct Hs as (mesh & dt0 & dt & tEnd & maxDt & Hm & Hws).
    subst tr. rewrite Ht, Hws.
    exists mesh, dt0,
      ([EvTimeLoopNew 0 dt tEnd; EvSetMaxTimeStepSize maxDt; EvTimeLoopStart] ++
       evs ++ [EvTimeLoopFinalize; EvPreciceFinalize]).
    split; [reflexivity |]. split; [exact Hm |].
    assert (C : vtk_frames
                  ([EvTimeLoopNew 0 dt tEnd; EvSetMaxTimeStepSize maxDt;
                    EvTimeLoopStart] ++
                   evs ++ [EvTimeLoopFinalize; EvPreciceFinalize]) =
                accepted_iterations
                  ([EvTimeLoopNew 0 dt tEnd; EvSetMaxTimeStepSize maxDt;
                    EvTimeLoopStart] ++
                   evs ++ [EvTimeLoopFinalize; EvPreciceFinalize])).
    { repeat rewrite vtk_frames_app. repeat rewrite accepted_iterations_app.
      rewrite Hc. reflexivity. }
    split; [exact C |].
    change ([mesh; EvInitialize dt0; EvInitializeData; EvVtkWrite 0;
             EvTimeLoopNew 0 dt tEnd; EvSetMaxTimeStepSize maxDt] ++
            [EvTimeLoopStart] ++ evs ++ [EvTimeLoopFinalize; EvPreciceFinalize])
      with ([mesh; EvInitialize dt0; EvInitializeData; EvVtkWrite 0] ++
            [EvTimeLoopNew 0 dt tEnd; EvSetMaxTimeStepSize maxDt; EvTimeLoopStart] ++
            evs ++ [EvTimeLoopFinalize; EvPreciceFinalize]).
    rewrite vtk_frames_app, accepted_iterations_app, C.
    destruct mesh; try discriminate Hm; reflexivity.
  - unfold darcy_main_body, bind, may_throw, throw, ret, emit, log, world0.
    destruct (Parameters_init fw); [discriminate |].
    destruct (gridManager_init fw); [discriminate |]. simpl.
    destruct (newton_solve_stationary fw (newton_new fw)
                (gv_init fw (repeat 0 (numDofs fw))) (repeat 0 (numDofs fw)))
      as [e | [[ns s1] gv]]; [discriminate |].
    intros w H. injection H as Hw. subst w. simpl.
    split; [eauto |]. repeat split.
Qed.



(** C5, as amended.  When no face matches, the traversal yields empty
    coordinate and index arrays and the driver raises nothing for that:
    once the parameters are parsed, the grid is built and the dimensions
    agree, it calls [setMeshVertices] with [vertexSize = 0] and goes on to
    [initialize()], [initializeData()] and the first VTK frame. *)
Theorem empty_interface_registers_empty_mesh (fuel : nat) :
  no_face_matches fw ->
  Parameters_init fw = None ->
  gridManager_init fw = None ->
  getDimensions pc (configured pc) = GridView_dimension fw ->
  extract_interface (elements fw) (bBoxx fw) = ([], []) /\
  exists dt0 rest,
    trace (snd (main_body fw pc fuel (world0 pc))) =
    EvSetMeshVertices (getMeshID pc "SolidEnergyMesh") 0 [] ::
    EvInitialize dt0 :: EvInitializeData :: EvVtkWrite 0 :: rest.
Proof.
  intros Hn Hp Hg Hd.
  pose proof (extract_interface_none Hn) as He. split; [exact He |].
  destruct (main_body_extends_startup fuel) as (rest & Hm). rewrite Hm.
  destruct (startup fw pc (world0 pc)) as [r ws] eqn:S.
  apply startup_inv in S. rewrite Hp, Hg in S. cbv zeta in S.
  rewrite Hd, Z.eqb_refl in S. simpl negb in S. cbv iota in S.
  rewrite He in S. simpl fst in S.
  assert (V : vertex_count [] (GridView_dimension fw) = 0%nat)
    by (unfold vertex_count; cbn [List.length Z.of_nat];
        rewrite Zdiv_0_l; reflexivity).
  rewrite V in S. simpl snd.
  destruct (getParam fw "TimeLoop.TEnd") as [tEnd |];
    [| destruct S as (_ & Ht); rewrite Ht; simpl; eauto].
  destruct (getParam fw "TimeLoop.MaxTimeStepSize") as [maxDt |];
    [| destruct S as (_ & Ht); rewrite Ht; simpl; eauto].
  destruct (getParam fw "TimeLoop.DtInitial") as [dt |];
    destruct S as (_ & Ht); rewrite Ht; simpl; eauto.
Qed.

End MainFacts.

(** ** Runs on the test doubles *)

Example startup_reaches_stub_entry :
  fst (startup (Stub.framework Stub.explicit_setup)
         (Stub.substrate Stub.explicit_precice)
         (world0 (Stub.substrate Stub.explicit_precice)))
  = Ok (stub_entry Stub.explicit_setup Stub.explicit_precice).
Proof. vm_compute. reflexivity. Qed.

Example explicit_run_frames :
  exists tr,
    main (Stub.framework Stub.explicit_setup)
      (Stub.substrate Stub.explicit_precice) 10 = Some (0%Z, tr) /\
    map (fun e => match e with EvVtkWrite t => t | _ => 0 end) (filter is_vtk tr)
    = [0; 1 # 10; 1 # 5; 3 # 10] /\
    accepted_iterations tr = 3%nat.
Proof. eexists. split; [vm_compute; reflexivity |]. split; vm_compute; reflexivity. Qed.

Example exit_code_1 :
  option_map fst
    (main (Stub.framework_with (Some DumuxParameterException) None Stub.explicit_setup)
       (Stub.substrate Stub.explicit_precice) 10) = Some 1%Z.
Proof. vm_compute. reflexivity. Qed.

Example exit_code_2 :
  option_map fst
    (main (Stub.framework_with None (Some DuneDGFException) Stub.explicit_setup)
       (Stub.substrate Stub.explicit_precice) 10) = Some 2%Z.
Proof. vm_compute. reflexivity. Qed.

Example exit_code_3 :
  option_map fst
    (main (Stub.framework_with None (Some DuneIOError) Stub.explicit_setup)
       (Stub.substrate Stub.explicit_precice) 10) = Some 3%Z.
Proof. vm_compute. reflexivity. Qed.

Example exit_code_4 :
  option_map fst
    (main (Stub.framework_with None (Some StdException) Stub.explicit_setup)
       (Stub.substrate Stub.explicit_precice) 10) = Some 4%Z.
Proof. vm_compute. reflexivity. Qed.

(** The rolled-back iteration on the doubles.  The read-checkpoint action
    is still pending after it, so the next iteration rolls back again. *)
Example rollback_leaves_read_pending :
  let v := stub_entry Stub.explicit_setup Stub.rollback_precice in
  let w := stub_world Stub.rollback_precice in
  Stub.pending_read (precice (snd (loop_body v w))) = true /\
  main (Stub.framework Stub.explicit_setup)
    (Stub.substrate Stub.rollback_precice) 50 = None.
Proof. split; vm_compute; reflexivity. Qed.

(** ** Where the code departs from its specification, on the test doubles *)

(** C2.  An iteration in which a checkpoint is written and then read
    back: the query for readCheckpoint answers true, the solution is
    restored and the grid variables updated, and the acknowledgment that
    follows names writeCheckpoint; readCheckpoint is acknowledged nowhere
    in the iteration. *)
Theorem rollback_acks_write_not_read :
  let v := stub_entry Stub.explicit_setup Stub.rollback_precice in
  let w := stub_world Stub.rollback_precice in
  exists v' w',
    loop_body v w = (Ok v', w') /\
    trace w' =
      [EvIsActionRequired writeCheckpoint true; EvFulfilledAction writeCheckpoint;
       EvSetPreviousSolution [0; 0]; EvSolve [0; 0]; EvGridVariablesAdvance;
       EvIsActionRequired readCheckpoint true; EvGridVariablesUpdate [0; 0];
       EvFulfilledAction writeCheckpoint] /\
    ~ In (EvFulfilledAction readCheckpoint) (trace w').
Proof.
  intros v w.
  assert (H : loop_body v w =
              (Ok (value v (fst (loop_body v w))), snd (loop_body v w)))
    by (vm_compute; reflexivity).
  exists (value v (fst (loop_body v w))), (snd (loop_body v w)).
  split; [exact H |]. split; [vm_compute; reflexivity |].
  refine (proj2 (proj2 (rollback_acknowledges_write_checkpoint _ _ _ H _ _))).
  - vm_compute. reflexivity.
  - vm_compute. auto 10.
Qed.

(** C3.  The same iteration: [solOld] was [[0; 0]] on entry; the solve
    produced [[1/10; 1/10]]; the iteration is rolled back, the solution
    goes back to the checkpoint [[0; 0]], and [solOld] stays at the
    rejected [[1/10; 1/10]]. *)
Theorem rollback_moves_solOld :
  let v := stub_entry Stub.explicit_setup Stub.rollback_precice in
  let w := stub_world Stub.rollback_precice in
  exists v' w',
    loop_body v w = (Ok v', w') /\
    In (EvIsActionRequired readCheckpoint true) (trace w') /\
    solOld v = [0; 0] /\
    sol v' = [0; 0] /\
    solOld v' = [1 # 10; 1 # 10] /\
    solOld v' <> solOld v.
Proof.
  intros v w.
  assert (H : loop_body v w =
              (Ok (value v (fst (loop_body v w))), snd (loop_body v w)))
    by (vm_compute; reflexivity).
  exists (value v (fst (loop_body v w))), (snd (loop_body v w)).
  split; [exact H |].
  destruct (solOld_is_last_solve _ _ H) as (ns & sol1 & gv1 & tl1 & Hs & Ho).
  vm_compute in Hs. injection Hs as _ Hsol _ _.
  split; [vm_compute; auto 10 |].
  split; [reflexivity |]. split; [vm_compute; reflexivity |].
  split; [rewrite Ho, <- Hsol; reflexivity |].
  rewrite Ho, <- Hsol. vm_compute. discriminate.
Qed.

(** C1, the counterexample.  Three steps of 1/10 while the substrate
    answers 1/20 to the first [advance]: the iteration installs
    [max(1/20, 1/10) = 1/10] (the Newton solver suggests the hint
    unchanged), which is not at most 1/20. *)
Lemma dt_not_clamped_by_substrate :
  ~ dt_clamped_by_substrate (Stub.framework Stub.explicit_setup)
      (Stub.substrate Stub.shrinking_precice).
Proof.
  intros C.
  pose (v := stub_entry Stub.explicit_setup Stub.shrinking_precice).
  pose (w := stub_world Stub.shrinking_precice).
  assert (H : loop_body v w =
              (Ok (value v (fst (loop_body v w))), snd (loop_body v w)))
    by (vm_compute; reflexivity).
  specialize (C v _ w _
    [EvIsActionRequired writeCheckpoint false;
     EvSetPreviousSolution [0; 0]; EvSolve [0; 0]; EvGridVariablesAdvance;
     EvIsActionRequired readCheckpoint false; EvTimeLoopAdvance;
     EvVtkWrite (1 # 10); EvReportTimeStep]
    (1 # 10) (1 # 20) [EvSetTimeStepSize (1 # 10)] H).
  assert (T : trace (snd (loop_body v w)) =
              trace w ++
              [EvIsActionRequired writeCheckpoint false;
               EvSetPreviousSolution [0; 0]; EvSolve [0; 0]; EvGridVariablesAdvance;
               EvIsActionRequired readCheckpoint false; EvTimeLoopAdvance;
               EvVtkWrite (1 # 10); EvReportTimeStep] ++
              EvAdvance (1 # 10) (1 # 20) :: [EvSetTimeStepSize (1 # 10)])
    by (vm_compute; reflexivity).
  specialize (C T). apply Qle_bool_iff in C. vm_compute in C. discriminate C.
Qed.

Lemma no_face_at_five :
  no_face_matches (Stub.framework Stub.no_interface_setup).
Proof.
  intros el f He Hf. simpl in He.
  repeat (destruct He as [He | He];
          [ subst el; simpl in Hf;
            repeat (destruct Hf as [Hf | Hf]; [subst f; reflexivity |]);
            contradiction |]).
  contradiction.
Qed.

(** C5, the counterexample.  No face of the two cells lies at [y = 5]:
    the run nevertheless returns 0, and its first call into the substrate
    registers a mesh of zero vertices. *)
Lemma empty_interface_is_not_an_error :
  ~ empty_interface_is_an_error (Stub.framework Stub.no_interface_setup)
      (Stub.substrate Stub.explicit_precice).
Proof.
  intros C. pose proof no_face_at_five as N.
  pose (tr := match main (Stub.framework Stub.no_interface_setup)
                      (Stub.substrate Stub.explicit_precice) 10 with
              | Some (_, t) => t
              | None => []
              end).
  assert (H : main (Stub.framework Stub.no_interface_setup)
                (Stub.substrate Stub.explicit_precice) 10 = Some (0%Z, tr))
    by (vm_compute; reflexivity).
  destruct (C N _ _ _ H) as [Hc _]. apply Hc. reflexivity.
Qed.

(** ** Instances *)

Lemma advance_then_suggested_step_witness :
  let v := stub_entry Stub.explicit_setup Stub.shrinking_precice in
  let w := stub_world Stub.shrinking_precice in
  let v' := value v (fst (loop_body v w)) in
  let w' := snd (loop_body v w) in
  let pre :=
    [EvIsActionRequired writeCheckpoint false;
     EvSetPreviousSolution [0; 0]; EvSolve [0; 0]; EvGridVariablesAdvance;
     EvIsActionRequired readCheckpoint false; EvTimeLoopAdvance;
     EvVtkWrite (1 # 10); EvReportTimeStep] in
  loop_body v w = (Ok v', w') /\
  trace w' = trace w ++ pre ++
             EvAdvance (1 # 10) (1 # 20) :: [EvSetTimeStepSize (1 # 10)] /\
  1 # 20 <= std_max (1 # 20) (1 # 10) /\
  1 # 10 <= std_max (1 # 20) (1 # 10).
Proof.
  intros v w v' w' pre.
  assert (H : loop_body v w = (Ok v', w')) by (vm_compute; reflexivity).
  assert (T : trace w' = trace w ++ pre ++
                         EvAdvance (1 # 10) (1 # 20) :: [EvSetTimeStepSize (1 # 10)])
    by (vm_compute; reflexivity).
  split; [exact H |]. split; [exact T |].
  destruct (advance_then_suggested_step v w pre _ _ _ H T) as (_ & _ & A & B & _).
  split; assumption.
Defined.

Lemma vtk_frame_iff_accepted_witness :
  let v := stub_entry Stub.explicit_setup Stub.explicit_precice in
  let w := stub_world Stub.explicit_precice in
  let v' := value v (fst (loop_body v w)) in
  let w' := snd (loop_body v w) in
  loop_body v w = (Ok v', w') /\
  exists evs,
    trace w' = trace w ++ evs /\
    vtk_frames evs = accepted_iterations evs /\
    (accepted_iterations evs + rollback_iterations evs = 1)%nat /\
    (vtk_frames evs = 1%nat <-> In (EvIsActionRequired readCheckpoint false) evs) /\
    (In (EvIsActionRequired readCheckpoint true) evs -> vtk_frames evs = 0%nat).
Proof.
  intros v w v' w'.
  assert (H : loop_body v w = (Ok v', w')) by (vm_compute; reflexivity).
  split; [exact H |]. exact (vtk_frame_iff_accepted v w H).
Defined.

Lemma initial_dt_is_max_witness :
  let fw := Stub.framework Stub.explicit_setup in
  let pc := Stub.substrate Stub.shrinking_precice in
  let r := startup fw pc (world0 pc) in
  let v := value (stub_entry Stub.explicit_setup Stub.shrinking_precice) (fst r) in
  r = (Ok v, snd r) /\
  exists mesh userDtInitial preciceInitDt tEnd maxDt,
    getParam fw "TimeLoop.DtInitial" = Some userDtInitial /\
    trace (snd r) =
      [mesh; EvInitialize preciceInitDt; EvInitializeData; EvVtkWrite 0;
       EvTimeLoopNew 0 (std_max userDtInitial preciceInitDt) tEnd;
       EvSetMaxTimeStepSize maxDt] /\
    timeLoop v =
      tl_setMaxTimeStepSize fw
        (tl_new fw 0 (std_max userDtInitial preciceInitDt) tEnd) maxDt /\
    userDtInitial <= std_max userDtInitial preciceInitDt /\
    preciceInitDt <= std_max userDtInitial preciceInitDt /\
    (std_max userDtInitial preciceInitDt = userDtInitial \/
     std_max userDtInitial preciceInitDt = preciceInitDt).
Proof.
  intros fw pc r v.
  assert (H : r = (Ok v, snd r)) by (vm_compute; reflexivity).
  split; [exact H |]. exact (initial_dt_is_max H).
Defined.

Lemma empty_interface_registers_empty_mesh_witness :
  let fw := Stub.framework Stub.no_interface_setup in
  let pc := Stub.substrate Stub.explicit_precice in
  no_face_matches fw /\
  Parameters_init fw = None /\
  gridManager_init fw = None /\
  getDimensions pc (configured pc) = GridView_dimension fw /\
  extract_interface (elements fw) (bBoxx fw) = ([], []) /\
  exists dt0 rest,
    trace (snd (main_body fw pc 10 (world0 pc))) =
    EvSetMeshVertices (getMeshID pc "SolidEnergyMesh") 0 [] ::
    EvInitialize dt0 :: EvInitializeData :: EvVtkWrite 0 :: rest.
Proof.
  intros fw pc.
  assert (P : Parameters_init fw = None) by reflexivity.
  assert (G : gridManager_init fw = None) by reflexivity.
  assert (D : getDimensions pc (configured pc) = GridView_dimension fw) by reflexivity.
  split; [exact no_face_at_five |]. split; [exact P |]. split; [exact G |].
  split; [exact D |].
  exact (@empty_interface_registers_empty_mesh fw pc 10 no_face_at_five P G D).
Defined.

Lemma restore_is_idempotent_witness :
  let v := stub_entry Stub.explicit_setup Stub.rollback_precice in
  let w := stub_world Stub.rollback_precice in
  let v1 := value v (fst (loop_body v w)) in
  let w1 := snd (loop_body v w) in
  let v2 := value v (fst (loop_body v1 w1)) in
  let w2 := snd (loop_body v1 w1) in
  let e1 :=
    [EvIsActionRequired writeCheckpoint true; EvFulfilledAction writeCheckpoint;
     EvSetPreviousSolution [0; 0]; EvSolve [0; 0]; EvGridVariablesAdvance;
     EvIsActionRequired readCheckpoint true; EvGridVariablesUpdate [0; 0];
     EvFulfilledAction writeCheckpoint] in
  let e2 :=
    [EvIsActionRequired writeCheckpoint false;
     EvSetPreviousSolution [1 # 10; 1 # 10]; EvSolve [0; 0]; EvGridVariablesAdvance;
     EvIsActionRequired readCheckpoint true; EvGridVariablesUpdate [0; 0];
     EvFulfilledAction writeCheckpoint] in
  loop_body v w = (Ok v1, w1) /\
  loop_body v1 w1 = (Ok v2, w2) /\
  trace w1 = trace w ++ e1 /\
  trace w2 = trace w1 ++ e2 /\
  sol v1 = sol_checkpoint v1 /\
  sol v2 = sol v1 /\
  sol_checkpoint v2 = sol_checkpoint v1.
Proof.
  intros v w v1 w1 v2 w2 e1 e2.
  assert (H1 : loop_body v w = (Ok v1, w1)) by (vm_compute; reflexivity).
  assert (H2 : loop_body v1 w1 = (Ok v2, w2)) by (vm_compute; reflexivity).
  assert (E1 : trace w1 = trace w ++ e1) by (vm_compute; reflexivity).
  assert (E2 : trace w2 = trace w1 ++ e2) by (vm_compute; reflexivity).
  assert (R1 : In (EvIsActionRequired readCheckpoint true) e1) by (simpl; auto 10).
  assert (R2 : In (EvIsActionRequired readCheckpoint true) e2) by (simpl; auto 10).
  assert (W2 : In (EvIsActionRequired writeCheckpoint false) e2) by (simpl; auto 10).
  split; [exact H1 |]. split; [exact H2 |]. split; [exact E1 |]. split; [exact E2 |].
  exact (proj2 (@restore_is_idempotent (Stub.framework Stub.explicit_setup)
                  (Stub.substrate Stub.rollback_precice))
           v v1 v2 w w1 w2 e1 e2 H1 H2 E1 E2 R1 R2 W2).
Defined.

Lemma loop_exits_at_first_stop_witness :
  let v := stub_entry Stub.explicit_setup Stub.explicit_precice in
  let w := stub_world Stub.explicit_precice in
  let r := do_while 10 v w in
  let v' := value v (fst r) in
  r = (Ok v', snd r) /\
  exists n, (n < 10)%nat /\
    rounds n v w = (Ok (false, v'), snd r) /\
    forall m, (m < n)%nat -> exists vm wm, rounds m v w = (Ok (true, vm), wm).
Proof.
  intros v w r v'.
  assert (H : do_while 10 v w = (Ok v', snd r)) by (vm_compute; reflexivity).
  split; [exact H |].
  exact (proj1 (proj1 (loop_exits_at_first_stop 10 v v' w (snd r))) H).
Defined.

Lemma initial_frame_then_one_per_accepted_witness :
  let fw := Stub.framework Stub.explicit_setup in
  let pc := Stub.substrate Stub.explicit_precice in
  let tr := match main fw pc 10 with Some (_, t) => t | None => [] end in
  let wd := snd (darcy_main_body fw pc ["darcy"; "params.input"]%string (world0 pc)) in
  main fw pc 10 = Some (0%Z, tr) /\
  darcy_main_body fw pc ["darcy"; "params.input"]%string (world0 pc) = (Ok tt, wd) /\
  vtk_frames tr = 4%nat /\
  accepted_iterations tr = 3%nat /\
  (exists mesh dt0 rest,
     tr = [mesh; EvInitialize dt0; EvInitializeData; EvVtkWrite 0] ++ rest /\
     is_mesh mesh = true /\
     vtk_frames rest = accepted_iterations rest /\
     vtk_frames tr = S (accepted_iterations tr)) /\
  ((exists cfg s0 s1,
      trace wd = [EvAnnounceSolver "Darcy" cfg; EvVtkWrite 0; EvSolve s0;
                  EvVtkWrite 1; EvPrintL2Error s1]) /\
   vtk_frames (trace wd) = 2%nat /\
   accepted_iterations (trace wd) = 0%nat /\
   rollback_iterations (trace wd) = 0%nat /\
   calls is_advance (trace wd) = 0%nat).
Proof.
  intros fw pc tr wd.
  assert (H : main fw pc 10 = Some (0%Z, tr)) by (vm_compute; reflexivity).
  assert (D : darcy_main_body fw pc ["darcy"; "params.input"]%string (world0 pc)
              = (Ok tt, wd)) by (vm_compute; reflexivity).
  split; [exact H |]. split; [exact D |].
  split; [vm_compute; reflexivity |]. split; [vm_compute; reflexivity |].
  destruct (initial_frame_then_one_per_accepted fw pc 10 tr
              ["darcy"; "params.input"]%string) as [A B].
  split; [exact (A H) | exact (B wd D)].
Defined.

(** * Further facts *)

(** ** Interface extraction *)

Lemma fold_left_concat (A B : Type) (f : A -> B -> A) (ls : list (list B)) (a : A) :
  fold_left (fun acc l => fold_left f l acc) ls a = fold_left f (concat ls) a.
Proof.
  revert a. induction ls as [| l ls IH]; intros a; simpl; [reflexivity |].
  rewrite fold_left_app. apply IH.
Qed.

Lemma visit_scvfs_is_filter (bBox : list Scalar) (faces : list Scvf) :
  forall acc,
    fold_left (visit_scvf bBox) faces acc =
    (fst acc ++ flat_map center (filter (on_interface bBox) faces),
     snd acc ++ map index (filter (on_interface bBox) faces)).
Proof.
  induction faces as [| f faces IH]; intros [coords ids]; simpl.
  - repeat rewrite app_nil_r. reflexivity.
  - rewrite IH. unfold visit_scvf. simpl.
    destruct (on_interface bBox f); simpl.
    + repeat rewrite <- app_assoc. reflexivity.
    + reflexivity.
Qed.

Lemma extract_interface_spec (els : list (list Scvf)) (bBox : list Scalar) :
  extract_interface els bBox =
  (flat_map center (filter (on_interface bBox) (concat els)),
   map index (filter (on_interface bBox) (concat els))).
Proof.
  unfold extract_interface, visit_element.
  rewrite fold_left_concat, visit_scvfs_is_filter. reflexivity.
Qed.

(** X1.  The traversal keeps exactly the faces that satisfy the interface
    predicate, in traversal order (element by element, face by face):
    the indices are theirs and the coordinate array is their centres laid
    end to end. *)
Theorem extract_interface_is_filter (els : list (list Scvf)) (bBox : list Scalar) :
  extract_interface els bBox =
  (flat_map center (filter (on_interface bBox) (concat els)),
   map index (filter (on_interface bBox) (concat els))).
Proof.
  unfold extract_interface, visit_element.
  rewrite fold_left_concat.
  rewrite (visit_scvfs_is_filter bBox (concat els) ([], [])).
  simpl. reflexivity.
Qed.

Lemma flat_map_length_uniform (A B : Type) (f : A -> list B) (n : nat) (l : list A) :
  (forall a, In a l -> List.length (f a) = n) ->
  List.length (flat_map f l) = (List.length l * n)%nat.
Proof.
  induction l as [| a l IH]; intros H; simpl; [reflexivity |].
  rewrite length_app, (H a) by (simpl; auto).
  rewrite IH by (intros b Hb; apply H; simpl; auto). reflexivity.
Qed.

(** X2.  When every face centre has [dim] coordinates ([dim] positive),
    the vertex count handed to [setMeshVertices], [coords.size() / dim],
    is the number of coupled faces: the coordinate array and the index
    array stay parallel. *)
Theorem vertex_count_is_number_of_coupled_faces
    (els : list (list Scvf)) (bBox : list Scalar) (dim : Z) :
  (0 < dim)%Z ->
  (forall scvf, In scvf (concat els) ->
     Z.of_nat (List.length (center scvf)) = dim) ->
  vertex_count (fst (extract_interface els bBox)) dim =
  List.length (snd (extract_interface els bBox)).
Proof.
  intros Hd Hc. rewrite extract_interface_spec. simpl.
  unfold vertex_count.
  rewrite (@flat_map_length_uniform _ _ center (Z.to_nat dim)).
  - rewrite length_map, Nat2Z.inj_mul, Z2Nat.id by lia.
    rewrite Z.div_mul by lia. apply Nat2Z.id.
  - intros f Hf. apply filter_In in Hf. destruct Hf as [Hf _].
    rewrite <- (Hc f Hf). symmetry. apply Nat2Z.id.
Qed.

Lemma vertex_count_is_number_of_coupled_faces_witness :
  (0 < 2)%Z /\
  (forall scvf, In scvf (concat Stub.two_cells) ->
     Z.of_nat (List.length (center scvf)) = 2%Z) /\
  vertex_count (fst (extract_interface Stub.two_cells [2; 1])) 2 = 2%nat /\
  snd (extract_interface Stub.two_cells [2; 1]) = [3; 7]%nat.
Proof.
  assert (P : (0 < 2)%Z) by lia.
  assert (C : forall scvf, In scvf (concat Stub.two_cells) ->
                Z.of_nat (List.length (center scvf)) = 2%Z).
  { intros f Hf. simpl in Hf.
    repeat (destruct Hf as [Hf | Hf]; [subst f; reflexivity |]). contradiction. }
  split; [exact P |]. split; [exact C |].
  split; [| reflexivity].
  rewrite (vertex_count_is_number_of_coupled_faces Stub.two_cells [2; 1] P C).
  reflexivity.
Defined.

(** ** Calls per iteration and over the loop *)

Lemma calls_app (p : Event -> bool) (a b : list Event) :
  calls p (a ++ b) = (calls p a + calls p b)%nat.
Proof. unfold calls. rewrite filter_app, length_app. reflexivity. Qed.

Section Tallies.

Variable fw : Framework.
Variable pc : SolverInterface.

Lemma loop_body_tally (v : Vars fw) (w w' : World pc) (r : Result (Vars fw)) :
  loop_body v w = (r, w') ->
  exists evs,
    trace w' = trace w ++ evs /\
    calls is_advance evs = accepted_iterations evs /\
    calls is_precice_finalize evs = 0%nat /\
    match r with
    | Throw _ =>
        calls is_solve evs = S (accepted_iterations evs + rollback_iterations evs) /\
        exists pre s, evs = pre ++ [EvSolve s]
    | _ => calls is_solve evs = (accepted_iterations evs + rollback_iterations evs)%nat
    end.
Proof.
  intros H. apply loop_body_inv in H. cbv zeta in H.
  remember (isActionRequired pc writeCheckpoint (precice w)) as wc eqn:Hwc.
  clear Hwc.
  destruct (newton_solve fw (nonLinearSolver v) (solOld v)
              (solidEnergyGridVariables v) (sol v) (timeLoop v))
    as [e | [[[ns sol1] gv1] tl1]].
  - destruct H as (Hr & _ & Ht). subst r. eexists. split; [exact Ht |].
    split; [destruct wc; reflexivity |]. split; [destruct wc; reflexivity |].
    split; [destruct wc; reflexivity |].
    exists (ev_checkpoint wc ++ [EvSetPreviousSolution (solOld v)]), (sol v).
    rewrite <- app_assoc. reflexivity.
  - match type of H with
    | if ?c then _ else _ => destruct c
    end; destruct H as (Hr & _ & Ht); subst r; eexists;
      (split; [exact Ht |]); repeat split; destruct wc; reflexivity.
Qed.

Lemma loop_condition_inv (v : Vars fw) (w w' : World pc) (r : Result bool) :
  loop_condition v w = (r, w') ->
  exists b evc,
    r = Ok b /\ trace w' = trace w ++ evc /\
    (evc = [] \/ exists a, evc = [EvIsCouplingOngoing a]).
Proof.
  unfold loop_condition, ret, precice_isCouplingOngoing, log.
  destruct (tl_finished fw (timeLoop v)); intros H; injection H as Hr Hw; subst.
  - exists false, []. rewrite app_nil_r. auto.
  - eexists. eexists. simpl. split; [reflexivity |]. split; [reflexivity |]. eauto.
Qed.

Lemma do_while_tally (fuel : nat) :
  forall (v : Vars fw) (w w' : World pc) (r : Result (Vars fw)),
    do_while fuel v w = (r, w') ->
    exists evs,
      trace w' = trace w ++ evs /\
      calls is_advance evs = accepted_iterations evs /\
      calls is_precice_finalize evs = 0%nat /\
      match r with
      | Throw _ =>
          calls is_solve evs = S (accepted_iterations evs + rollback_iterations evs) /\
          exists pre s, evs = pre ++ [EvSolve s]
      | _ => calls is_solve evs = (accepted_iterations evs + rollback_iterations evs)%nat
      end.
Proof.
  induction fuel as [| fuel IH]; intros v w w' r.
  - simpl. intros H. injection H as Hr Hw. subst. exists [].
    rewrite app_nil_r. repeat split.
  - simpl. unfold bind at 1.
    destruct (loop_body v w) as [rb wb] eqn:B.
    destruct (loop_body_tally _ _ B) as (evb & Eb & Ab & Fb & Sb).
    destruct rb as [vb | e |].
    + unfold bind.
      destruct (loop_condition vb wb) as [rc wc] eqn:C.
      destruct (loop_condition_inv _ _ C) as (b & evc & Hrc & Ec & Hevc).
      subst rc.
      assert (Z : calls is_advance evc = 0%nat /\
                  calls is_precice_finalize evc = 0%nat /\
                  calls is_solve evc = 0%nat /\
                  accepted_iterations evc = 0%nat /\
                  rollback_iterations evc = 0%nat)
        by (destruct Hevc as [Hevc | [a Hevc]]; subst evc; repeat split).
      destruct Z as (Z1 & Z2 & Z3 & Z4 & Z5).
      destruct b.
      * intros H. apply IH in H. destruct H as (evr & Er & Ar & Fr & Sr).
        exists (evb ++ evc ++ evr). split.
        { rewrite Er, Ec, Eb. repeat rewrite <- app_assoc. reflexivity. }
        repeat rewrite calls_app. repeat rewrite accepted_iterations_app.
        repeat rewrite rollback_iterations_app.
        split; [lia |]. split; [lia |].
        destruct r as [vr | e |]; try lia.
        destruct Sr as (Sr & pre & s & Hpre). split; [lia |].
        exists (evb ++ evc ++ pre), s. rewrite Hpre.
        repeat rewrite <- app_assoc. reflexivity.
      * intros H. injection H as Hr Hw. subst. exists (evb ++ evc). split.
        { rewrite Ec, Eb. rewrite <- app_assoc. reflexivity. }
        repeat rewrite calls_app. repeat rewrite accepted_iterations_app.
        repeat rewrite rollback_iterations_app. repeat split; lia.
    + intros H. injection H as Hr Hw. subst. exists evb. auto.
    + intros H. injection H as Hr Hw. subst. exists evb. auto.
Qed.

End Tallies.

(** ** Whole runs of the solid-energy driver *)

Section Runs.

Variable fw : Framework.
Variable pc : SolverInterface.

(** How [main]'s body is made of the startup sequence and the loop. *)
Lemma main_body_inv (fuel : nat) (r : Result unit) (w : World pc) :
  main_body fw pc fuel (world0 pc) = (r, w) ->
  match startup fw pc (world0 pc) with
  | (Ok v, ws) =>
      match do_while fuel (started v) (log ws EvTimeLoopStart) with
      | (Ok _, wl) =>
          r = Ok tt /\ trace w = trace wl ++ [EvTimeLoopFinalize; EvPreciceFinalize]
      | (Throw e, wl) => r = Throw e /\ w = wl
      | (OutOfFuel, wl) => r = OutOfFuel /\ w = wl
      end
  | (Throw e, ws) => r = Throw e /\ w = ws
  | (OutOfFuel, ws) => r = OutOfFuel /\ w = ws
  end.
Proof.
  unfold main_body. unfold bind at 1.
  destruct (startup fw pc (world0 pc)) as [[v | e |] ws];
    try (intros H; injection H as Hr Hw; subst; auto).
  unfold bind at 1. unfold emit at 1. unfold bind at 1.
  change (Build_Vars (sol v) (solOld v) (sol_checkpoint v)
            (solidEnergyGridVariables v) (tl_start fw (timeLoop v))
            (nonLinearSolver v)) with (started v).
  destruct (do_while fuel (started v) (log ws EvTimeLoopStart)) as [[vl | e |] wl];
    unfold bind, emit, precice_finalize, ret, log; simpl;
    intros H; injection H as Hr Hw; subst; simpl; auto.
  split; [reflexivity |]. rewrite <- app_assoc. reflexivity.
Qed.

(** A startup sequence that throws decides the exit code; nothing is
    called after it. *)
Lemma main_of_failed_startup (fuel : nat) (e : ExceptionType) (ws : World pc) :
  startup fw pc (world0 pc) = (Throw e, ws) ->
  main fw pc fuel =
  option_map (fun code => (code, trace ws)) (dispatch main_handlers e).
Proof.
  intros S. unfold main.
  destruct (main_body fw pc fuel (world0 pc)) as [r w] eqn:B.
  apply main_body_inv in B. rewrite S in B. destruct B as [Hr Hw]. subst.
  unfold exit_code. destruct (dispatch main_handlers e); reflexivity.
Qed.

(** X3.  When the substrate's dimension differs from the grid's, [main]
    exits with code 3 (the exception is a Dune one) and has made no call
    that leaves a trace: no mesh is registered, nothing is initialised,
    no frame is written. *)
Theorem dimension_mismatch_exits_3 (fuel : nat) :
  Parameters_init fw = None ->
  gridManager_init fw = None ->
  getDimensions pc (configured pc) <> GridView_dimension fw ->
  main fw pc fuel = Some (3%Z, []).
Proof.
  intros Hp Hg Hd.
  destruct (startup fw pc (world0 pc)) as [r ws] eqn:S.
  pose proof (startup_inv S) as I. rewrite Hp, Hg in I. cbv zeta in I.
  apply Z.eqb_neq in Hd. rewrite Hd in I. simpl in I.
  destruct I as [Hr Ht]. subst r.
  rewrite (main_of_failed_startup fuel S), Ht. reflexivity.
Qed.

(** X4.  A missing TimeLoop parameter (TEnd, MaxTimeStepSize or
    DtInitial) is found only after the coupling handshake: [main] exits
    with code 1 after it has registered the mesh, called [initialize()]
    and [initializeData()] and written the frame at time 0, and calls
    nothing else; in particular [finalize()] is not called. *)
Theorem missing_time_loop_parameter_exits_1 (fuel : nat) :
  Parameters_init fw = None ->
  gridManager_init fw = None ->
  getDimensions pc (configured pc) = GridView_dimension fw ->
  getParam fw "TimeLoop.TEnd" = None \/
  getParam fw "TimeLoop.MaxTimeStepSize" = None \/
  getParam fw "TimeLoop.DtInitial" = None ->
  exists mesh dt0,
    is_mesh mesh = true /\
    main fw pc fuel =
    Some (1%Z, [mesh; EvInitialize dt0; EvInitializeData; EvVtkWrite 0]).
Proof.
  intros Hp Hg Hd Hm.
  destruct (startup fw pc (world0 pc)) as [r ws] eqn:S.
  pose proof (startup_inv S) as I. rewrite Hp, Hg in I. cbv zeta in I.
  rewrite Hd, Z.eqb_refl in I. simpl negb in I. cbv iota in I.
  assert (T : r = Throw DumuxParameterException /\
              exists mesh dt0, is_mesh mesh = true /\
                trace ws = [mesh; EvInitialize dt0; EvInitializeData; EvVtkWrite 0]).
  { destruct (getParam fw "TimeLoop.TEnd") as [tEnd |];
      [| destruct I as [Hr Ht]; split; [exact Hr |]; eexists; eexists;
         split; [| exact Ht]; reflexivity].
    destruct (getParam fw "TimeLoop.MaxTimeStepSize") as [maxDt |];
      [| destruct I as [Hr Ht]; split; [exact Hr |]; eexists; eexists;
         split; [| exact Ht]; reflexivity].
    destruct (getParam fw "TimeLoop.DtInitial") as [dt |];
      [| destruct I as [Hr Ht]; split; [exact Hr |]; eexists; eexists;
         split; [| exact Ht]; reflexivity].
    destruct Hm as [Hm | [Hm | Hm]]; discriminate Hm. }
  destruct T as (Hr & mesh & dt0 & Hmesh & Ht). subst r.
  exists mesh, dt0. split; [exact Hmesh |].
  rewrite (main_of_failed_startup fuel S), Ht. reflexivity.
Qed.

(** The trace of a run that returns 0. *)
Lemma returning_run (fuel : nat) (tr : list Event) :
  main fw pc fuel = Some (0%Z, tr) ->
  exists mesh dt0 dt tEnd maxDt evs,
    tr = [EvSetMeshVertices (fst (fst mesh)) (snd (fst mesh)) (snd mesh);
          EvInitialize dt0; EvInitializeData; EvVtkWrite 0;
          EvTimeLoopNew 0 dt tEnd; EvSetMaxTimeStepSize maxDt; EvTimeLoopStart] ++
         evs ++ [EvTimeLoopFinalize; EvPreciceFinalize] /\
    calls is_advance evs = accepted_iterations evs /\
    calls is_precice_finalize evs = 0%nat /\
    calls is_solve evs = (accepted_iterations evs + rollback_iterations evs)%nat.
Proof.
  intros H. apply main_returns_zero in H. destruct H as (w & B & Htr). subst tr.
  apply main_body_inv in B.
  destruct (startup fw pc (world0 pc)) as [[v | e |] ws] eqn:S;
    try (destruct B; discriminate).
  destruct (do_while fuel (started v) (log ws EvTimeLoopStart))
    as [[vl | e |] wl] eqn:L; try (destruct B; discriminate).
  destruct B as [_ Ht].
  destruct (do_while_tally _ _ _ L) as (evs & El & Al & Fl & Sl).
  destruct (startup_ok_trace S) as (mesh & dt0 & dt & tEnd & maxDt & Hm & Hs).
  destruct mesh as [id n cs | | | | | | | | | | | | | | | | | | | | |];
    try discriminate Hm.
  exists (id, n, cs), dt0, dt, tEnd, maxDt, evs.
  split; [| auto].
  rewrite Ht, El. unfold log. simpl. rewrite Hs. simpl.
  repeat rewrite <- app_assoc. reflexivity.
Qed.

(** X5.  In a run that returns 0, [precice.finalize()] is called exactly
    once and it is the last call of the run, right after
    [timeLoop->finalize]. *)
Theorem finalize_is_called_once_and_last (fuel : nat) (tr : list Event) :
  main fw pc fuel = Some (0%Z, tr) ->
  exists pre,
    tr = pre ++ [EvTimeLoopFinalize; EvPreciceFinalize] /\
    calls is_precice_finalize pre = 0%nat /\
    calls is_precice_finalize tr = 1%nat.
Proof.
  intros H. apply returning_run in H.
  destruct H as (mesh & dt0 & dt & tEnd & maxDt & evs & Htr & _ & F & _).
  eexists. split; [rewrite Htr; rewrite app_assoc; reflexivity |].
  assert (P : calls is_precice_finalize
                ([EvSetMeshVertices (fst (fst mesh)) (snd (fst mesh)) (snd mesh);
                  EvInitialize dt0; EvInitializeData; EvVtkWrite 0;
                  EvTimeLoopNew 0 dt tEnd; EvSetMaxTimeStepSize maxDt;
                  EvTimeLoopStart] ++ evs) = 0%nat)
    by (rewrite calls_app, F; reflexivity).
  split; [exact P |].
  rewrite Htr, app_assoc, calls_app, P. reflexivity.
Qed.

(** X6.  In a run that returns 0, [precice.advance] is called once per
    accepted iteration and never in a rolled-back one, and the Newton
    solver is run once per iteration, accepted or rolled back. *)
Theorem calls_per_kind_of_iteration (fuel : nat) (tr : list Event) :
  main fw pc fuel = Some (0%Z, tr) ->
  calls is_advance tr = accepted_iterations tr /\
  calls is_solve tr = (accepted_iterations tr + rollback_iterations tr)%nat.
Proof.
  intros H. apply returning_run in H.
  destruct H as (mesh & dt0 & dt & tEnd & maxDt & evs & Htr & A & _ & S).
  subst tr.
  repeat rewrite calls_app. repeat rewrite accepted_iterations_app.
  repeat rewrite rollback_iterations_app. rewrite A, S.
  generalize (accepted_iterations evs) (rollback_iterations evs). intros a b.
  unfold calls, accepted_iterations, rollback_iterations. simpl. lia.
Qed.

(** X7.  A Newton solve that throws is fatal to the run, whatever
    actions the substrate has pending: from the top of any iteration whose
    solve throws, the loop ends with that exception; the checkpoint
    query (with its acknowledgment, if the checkpoint was to be written),
    [setPreviousSolution] and the solve are the last calls made, so
    readCheckpoint is not queried and nothing is rolled back, advanced or
    written; and [main], when this is its first iteration, exits with the
    code of the handler that catches the exception without calling
    [finalize()]. *)
Theorem failed_solve_ends_the_run (fuel : nat) (v : Vars fw) (w : World pc)
    (e : ExceptionType) :
  newton_solve fw (nonLinearSolver v) (solOld v)
    (solidEnergyGridVariables v) (sol v) (timeLoop v) = inl e ->
  let wc := isActionRequired pc writeCheckpoint (precice w) in
  let evs := ev_checkpoint wc ++
             [EvSetPreviousSolution (solOld v); EvSolve (sol v)] in
  (exists w',
     do_while (S fuel) v w = (Throw e, w') /\
     trace w' = trace w ++ evs /\
     precice w' =
       (if wc then fulfilledAction pc writeCheckpoint (precice w) else precice w)) /\
  calls (mentions readCheckpoint) evs = 0%nat /\
  vtk_frames evs = 0%nat /\
  calls is_advance evs = 0%nat /\
  (forall v0 ws,
     startup fw pc (world0 pc) = (Ok v0, ws) ->
     started v0 = v -> log ws EvTimeLoopStart = w ->
     main fw pc (S fuel) =
     option_map (fun code => (code, trace ws ++ [EvTimeLoopStart] ++ evs))
       (dispatch main_handlers e)).
Proof.
  intros N wc evs.
  assert (L : exists w',
             do_while (S fuel) v w = (Throw e, w') /\
             trace w' = trace w ++ evs /\
             precice w' =
               (if wc then fulfilledAction pc writeCheckpoint (precice w)
                else precice w)).
  { destruct (loop_body v w) as [rb wb] eqn:B.
    pose proof (loop_body_inv _ _ B) as I. cbv zeta in I. rewrite N in I.
    destruct I as (Hr & Hp & Ht). subst rb.
    exists wb. split; [| split; [exact Ht | exact Hp]].
    simpl. unfold bind at 1. rewrite B. reflexivity. }
  split; [exact L |].
  split; [subst evs; destruct wc; reflexivity |].
  split; [subst evs; destruct wc; reflexivity |].
  split; [subst evs; destruct wc; reflexivity |].
  intros v0 ws S Hv Hw. destruct L as (w' & D & Ht & _).
  unfold main.
  destruct (main_body fw pc (Datatypes.S fuel) (world0 pc)) as [r wm] eqn:B.
  apply main_body_inv in B. rewrite S, Hv, Hw, D in B.
  destruct B as [Hr Hwm]. subst r wm. unfold exit_code.
  rewrite Ht, <- Hw. unfold log. simpl.
  rewrite <- app_assoc.
  destruct (dispatch main_handlers e); reflexivity.
Qed.

End Runs.

(** ** The checkpoint over iterations *)

Section Checkpoints.

Variable fw : Framework.
Variable pc : SolverInterface.

Ltac impossible_event Hin :=
  unfold ev_checkpoint in Hin; simpl in Hin;
  repeat (destruct Hin as [Hin | Hin]; [discriminate Hin |]); contradiction.

(** X8.  An iteration that writes the checkpoint and is then rolled back
    undoes its solve: the solution after the iteration, and the
    checkpoint, are the solution the iteration started with. *)
Theorem checkpoint_written_and_read_undoes_the_solve
    (v v' : Vars fw) (w w' : World pc) (evs : list Event) :
  loop_body v w = (Ok v', w') ->
  trace w' = trace w ++ evs ->
  In (EvIsActionRequired writeCheckpoint true) evs ->
  In (EvIsActionRequired readCheckpoint true) evs ->
  sol v' = sol v /\ sol_checkpoint v' = sol v.
Proof.
  intros H E Hw Hr. apply loop_body_ok in H.
  destruct H as (wc & ns & sol1 & gv1 & tl1 & _ & H). cbv zeta in H.
  destruct H as [(Hv & Ht) | (p & Hv & Ht)]; rewrite Ht in E;
    apply app_inv_head in E; subst evs.
  - destruct wc.
    + subst v'. simpl. auto.
    + exfalso. impossible_event Hw.
  - exfalso. destruct wc; impossible_event Hr.
Qed.

Lemma loop_body_keeps_checkpoint (v v' : Vars fw) (w w' : World pc) :
  loop_body v w = (Ok v', w') ->
  exists evs,
    trace w' = trace w ++ evs /\
    (calls (is_query writeCheckpoint true) evs = 0%nat ->
     sol_checkpoint v' = sol_checkpoint v).
Proof.
  intros H. apply loop_body_ok in H.
  destruct H as (wc & ns & sol1 & gv1 & tl1 & _ & H). cbv zeta in H.
  destruct H as [(Hv & Ht) | (p & Hv & Ht)]; eexists; (split; [exact Ht |]);
    subst v'; simpl; (destruct wc; [intros C; discriminate C | reflexivity]).
Qed.

Lemma do_while_keeps_checkpoint (fuel : nat) :
  forall (v v' : Vars fw) (w w' : World pc),
    do_while fuel v w = (Ok v', w') ->
    exists evs,
      trace w' = trace w ++ evs /\
      (calls (is_query writeCheckpoint true) evs = 0%nat ->
       sol_checkpoint v' = sol_checkpoint v).
Proof.
  induction fuel as [| fuel IH]; intros v v' w w'; [discriminate |].
  simpl. unfold bind at 1.
  destruct (loop_body v w) as [[vb | e |] wb] eqn:B; try discriminate.
  destruct (loop_body_keeps_checkpoint _ _ B) as (evb & Eb & Kb).
  unfold bind.
  destruct (loop_condition vb wb) as [rc wc] eqn:C.
  destruct (loop_condition_inv _ _ C) as (b & evc & Hrc & Ec & Hevc). subst rc.
  assert (Z : calls (is_query writeCheckpoint true) evc = 0%nat)
    by (destruct Hevc as [Hevc | [a Hevc]]; subst evc; reflexivity).
  destruct b.
  - intros H. apply IH in H. destruct H as (evr & Er & Kr).
    exists (evb ++ evc ++ evr). split.
    + rewrite Er, Ec, Eb. repeat rewrite <- app_assoc. reflexivity.
    + repeat rewrite calls_app. intros N.
      rewrite Kr by lia. apply Kb. lia.
  - intros H. injection H as Hv Hw. subst. exists (evb ++ evc). split.
    + rewrite Ec, Eb. rewrite <- app_assoc. reflexivity.
    + rewrite calls_app. intros N. apply Kb. lia.
Qed.

(** X9.  The checkpoint changes only in iterations in which the
    substrate asks for it to be written: over a whole loop in which
    writeCheckpoint is never required, the checkpoint at exit is the one
    at entry (the initial solution), whatever was solved and rolled back
    in between. *)
Theorem checkpoint_kept_without_write_request
    (fuel : nat) (v v' : Vars fw) (w w' : World pc) (evs : list Event) :
  do_while fuel v w = (Ok v', w') ->
  trace w' = trace w ++ evs ->
  calls (is_query writeCheckpoint true) evs = 0%nat ->
  sol_checkpoint v' = sol_checkpoint v.
Proof.
  intros H E N. apply do_while_keeps_checkpoint in H.
  destruct H as (evs' & E' & K). rewrite E' in E. apply app_inv_head in E.
  subst evs'. exact (K N).
Qed.

(** After its body the loop only adds to the trace. *)
Lemma do_while_extends_first_body (fuel : nat) (v : Vars fw) (w : World pc) :
  exists rest,
    trace (snd (do_while (S fuel) v w)) = trace (snd (loop_body v w)) ++ rest.
Proof.
  simpl. unfold bind at 1.
  destruct (loop_body v w) as [[vb | e |] wb]; simpl;
    try (exists []; symmetry; apply app_nil_r).
  unfold bind.
  destruct (loop_condition vb wb) as [rc wc] eqn:C.
  destruct (loop_condition_inv _ _ C) as (b & evc & Hrc & Ec & _). subst rc.
  destruct b.
  - destruct (do_while fuel vb wc) as [r wl] eqn:L.
    destruct (do_while_tally _ _ _ L) as (evr & Er & _).
    exists (evc ++ evr). simpl. rewrite Er, Ec, <- app_assoc. reflexivity.
  - exists evc. exact Ec.
Qed.

(** X10.  The loop is a do-while: once the startup sequence is through,
    the driver asks for the checkpoint action, hands the previous
    solution to the assembler and runs one Newton solve before it looks
    at [timeLoop->finished()] or [isCouplingOngoing()] for the first
    time, also when the time loop is finished or the coupling is over
    from the start. *)
Theorem first_solve_precedes_every_test (fuel : nat) (v : Vars fw) (ws : World pc) :
  startup fw pc (world0 pc) = (Ok v, ws) ->
  exists wc rest,
    trace (snd (main_body fw pc (S fuel) (world0 pc))) =
    trace ws ++ [EvTimeLoopStart] ++ ev_checkpoint wc ++
    [EvSetPreviousSolution (solOld v); EvSolve (sol v)] ++ rest.
Proof.
  intros S.
  destruct (main_body fw pc (Datatypes.S fuel) (world0 pc)) as [r w] eqn:B.
  apply main_body_inv in B. rewrite S in B.
  destruct (do_while_extends_first_body fuel (started v) (log ws EvTimeLoopStart))
    as (rest & R).
  destruct (loop_body (started v) (log ws EvTimeLoopStart)) as [rb wb] eqn:L.
  apply loop_body_inv in L. cbv zeta in L. cbn [snd] in R.
  set (wc := isActionRequired pc writeCheckpoint (precice (log ws EvTimeLoopStart))) in *.
  assert (T : exists more,
             trace wb = (trace ws ++ [EvTimeLoopStart]) ++
                        (ev_checkpoint wc ++
                         [EvSetPreviousSolution (solOld v); EvSolve (sol v)]) ++ more).
  { destruct (newton_solve fw (nonLinearSolver (started v)) (solOld (started v))
                (solidEnergyGridVariables (started v)) (sol (started v))
                (timeLoop (started v))) as [e | [[[ns sol1] gv1] tl1]].
    - destruct L as (_ & _ & Ht). exists []. rewrite app_nil_r. exact Ht.
    - match type of L with
      | if ?c then _ else _ => destruct c
      end; destruct L as (_ & _ & Ht); eexists; exact Ht. }
  destruct T as (more & T).
  assert (W : exists tail, trace w =
                trace (snd (do_while (Datatypes.S fuel) (started v)
                              (log ws EvTimeLoopStart))) ++ tail).
  { destruct (do_while (Datatypes.S fuel) (started v) (log ws EvTimeLoopStart))
      as [[vl | e |] wl]; simpl.
    - destruct B as [_ Ht]. eexists. exact Ht.
    - destruct B as [_ Hw]. subst. exists []. symmetry. apply app_nil_r.
    - destruct B as [_ Hw]. subst. exists []. symmetry. apply app_nil_r. }
  destruct W as (tail & W).
  exists wc, (more ++ rest ++ tail). cbn [snd].
  rewrite W, R, T. repeat rewrite <- app_assoc. reflexivity.
Qed.

End Checkpoints.

(** ** The Darcy driver: analytical solution and L2 error *)

Lemma assign_length (A : Type) (i : nat) (x : A) (l : list A) :
  List.length (assign i x l) = List.length l.
Proof.
  revert i. induction l as [| h t IH]; intros [| i]; simpl; auto.
Qed.

Lemma nth_assign_same (A : Type) (i : nat) (x d : A) (l : list A) :
  (i < List.length l)%nat -> nth i (assign i x l) d = x.
Proof.
  revert i. induction l as [| h t IH]; intros [| i] H; simpl in *; try lia; auto.
  apply IH. lia.
Qed.

Lemma nth_assign_other (A : Type) (i j : nat) (x d : A) (l : list A) :
  i <> j -> nth j (assign i x l) d = nth j l d.
Proof.
  revert i j. induction l as [| h t IH]; intros [| i] [| j] H; simpl; auto.
  congruence.
Qed.

Lemma Qsquare_nonneg (a : Q) : 0 <= a * a.
Proof. unfold Qle, Qmult. simpl. nia. Qed.

Lemma copy_directions_length (n : nat) (s v : list Scalar) :
  List.length (copy_directions n s v) = List.length v.
Proof.
  unfold copy_directions. generalize (seq 0 n) as ds. intros ds. revert v.
  induction ds as [| d ds IH]; intros v; simpl; [reflexivity |].
  rewrite IH. apply assign_length.
Qed.

Lemma copy_directions_nth (n : nat) (s v : list Scalar) (dirIdx : nat) :
  (dirIdx < n)%nat -> (dirIdx < List.length v)%nat ->
  nth dirIdx (copy_directions n s v) 0 = nth dirIdx s 0.
Proof.
  induction n as [| k IH]; intros Hd Hv; [lia |].
  unfold copy_directions. rewrite seq_S, fold_left_app. simpl.
  fold (copy_directions k s v).
  destruct (Nat.eq_dec dirIdx k) as [E | N].
  - subst k. apply nth_assign_same. rewrite copy_directions_length. exact Hv.
  - rewrite nth_assign_other by congruence. apply IH; lia.
Qed.

Lemma In_assign (A : Type) (i : nat) (x e : A) (l : list A) :
  In e (assign i x l) -> e = x \/ In e l.
Proof.
  revert i. induction l as [| h t IH]; intros [| i]; simpl; auto.
  - intros [H | H]; auto.
  - intros [H | H]; auto. destruct (IH _ H); auto.
Qed.

Section DarcyPostFacts.

Variable analyticalSolution : list Scalar -> list Scalar.
Variable dim : nat.
Variable dimWorld : nat.

Lemma analytical_fold_invariant (nDofs : nat) (l : list Scv) :
  (forall scv, In scv l -> (dofIndex scv < nDofs)%nat) ->
  (forall a b, In a l -> In b l ->
     dofIndex a = dofIndex b -> dofPosition a = dofPosition b) ->
  let r := fold_left (visit_scv_analytical analyticalSolution dim) l
             (repeat 0 nDofs, repeat (repeat 0 dimWorld) nDofs) in
  List.length (fst r) = nDofs /\
  List.length (snd r) = nDofs /\
  (forall e, In e (snd r) -> List.length e = dimWorld) /\
  forall scv, In scv l ->
    nth (dofIndex scv) (fst r) 0 = nth dim (analyticalSolution (dofPosition scv)) 0 /\
    forall dirIdx, (dirIdx < dim)%nat -> (dirIdx < dimWorld)%nat ->
      nth dirIdx (nth (dofIndex scv) (snd r) []) 0 =
      nth dirIdx (analyticalSolution (dofPosition scv)) 0.
Proof.
  induction l as [| s l IH] using rev_ind; intros Hi Hp.
  - simpl. repeat rewrite repeat_length. repeat split; try contradiction.
    intros e He. apply repeat_spec in He. subst e. apply repeat_length.
  - rewrite fold_left_app. simpl.
    destruct IH as (L1 & L2 & L3 & V).
    { intros scv H. apply Hi, in_or_app. auto. }
    { intros a b Ha Hb. apply Hp; apply in_or_app; auto. }
    set (r := fold_left (visit_scv_analytical analyticalSolution dim) l
                (repeat 0 nDofs, repeat (repeat 0 dimWorld) nDofs)) in *.
    assert (Hs : (dofIndex s < nDofs)%nat)
      by (apply Hi, in_or_app; right; simpl; auto).
    assert (Le : List.length (nth (dofIndex s) (snd r) []) = dimWorld)
      by (apply L3, nth_In; lia).
    unfold visit_scv_analytical. simpl.
    split; [rewrite assign_length; exact L1 |].
    split; [rewrite assign_length; exact L2 |].
    split.
    + intros e He. apply In_assign in He. destruct He as [He | He].
      * subst e. rewrite copy_directions_length. exact Le.
      * apply L3, He.
    + intros scv Hin.
      destruct (Nat.eq_dec (dofIndex s) (dofIndex scv)) as [E | N].
      * assert (P : dofPosition s = dofPosition scv).
        { apply Hp; [apply in_or_app; right; simpl; auto | exact Hin | exact E]. }
        rewrite <- E, <- P. split.
        -- apply nth_assign_same. lia.
        -- intros d Hd Hw. rewrite nth_assign_same by lia.
           apply copy_directions_nth; [exact Hd | lia].
      * apply in_app_or in Hin. destruct Hin as [Hin | [Hin | []]];
          [| congruence].
        destruct (V scv Hin) as [Vp Vv]. split.
        -- rewrite nth_assign_other by exact N. exact Vp.
        -- intros d Hd Hw. rewrite nth_assign_other by exact N. apply Vv; assumption.
Qed.

Lemma create_analytical_spec (nDofs : nat) (els : list (list Scv)) :
  consistent_dofs nDofs els ->
  let r := createDarcyAnalyticalSolution analyticalSolution dim dimWorld nDofs els in
  List.length (fst r) = nDofs /\
  List.length (snd r) = nDofs /\
  forall scv, In scv (concat els) ->
    nth (dofIndex scv) (fst r) 0 = nth dim (analyticalSolution (dofPosition scv)) 0 /\
    forall dirIdx, (dirIdx < dim)%nat -> (dirIdx < dimWorld)%nat ->
      nth dirIdx (nth (dofIndex scv) (snd r) []) 0 =
      nth dirIdx (analyticalSolution (dofPosition scv)) 0.
Proof.
  intros [Hi Hp]. unfold createDarcyAnalyticalSolution.
  rewrite fold_left_concat.
  destruct (@analytical_fold_invariant nDofs (concat els) Hi Hp) as (L1 & L2 & _ & V).
  cbv zeta. auto.
Qed.

(** X11.  On a grid whose degrees of freedom are all within [numDofs]
    and whose sub-control volumes agree on the position of a shared
    degree of freedom, [createDarcyAnalyticalSolution] returns two
    vectors of [numDofs] entries; at the degree of freedom of every
    sub-control volume the pressure entry is component [dim] of the
    analytical solution at its position, and the velocity entry carries
    its first [dim] components. *)
Theorem analytical_solution_at_every_dof (nDofs : nat) (els : list (list Scv)) :
  consistent_dofs nDofs els ->
  let r := createDarcyAnalyticalSolution analyticalSolution dim dimWorld nDofs els in
  List.length (fst r) = nDofs /\
  List.length (snd r) = nDofs /\
  forall scv, In scv (concat els) ->
    nth (dofIndex scv) (fst r) 0 = nth dim (analyticalSolution (dofPosition scv)) 0 /\
    forall dirIdx, (dirIdx < dim)%nat -> (dirIdx < dimWorld)%nat ->
      nth dirIdx (nth (dofIndex scv) (snd r) []) 0 =
      nth dirIdx (analyticalSolution (dofPosition scv)) 0.
Proof.
  intros [Hi Hp]. unfold createDarcyAnalyticalSolution.
  rewrite fold_left_concat.
  destruct (@analytical_fold_invariant nDofs (concat els) Hi Hp) as (L1 & L2 & _ & V).
  cbv zeta. split; [exact L1 |]. split; [exact L2 |].
  intros scv Hin. exact (V scv Hin).
Qed.

Lemma l2_fold_nonneg (x : list Scalar) (l : list Scv) :
  (forall scv, In scv l -> 0 <= volume scv) ->
  forall acc, 0 <= acc ->
    0 <= fold_left (visit_scv_l2 analyticalSolution x) l acc.
Proof.
  induction l as [| s l IH]; intros Hv acc Ha; simpl; [exact Ha |].
  apply IH; [intros scv H; apply Hv; simpl; auto |].
  unfold visit_scv_l2.
  match goal with
  | |- 0 <= acc + ?t =>
      assert (T : 0 <= t)
        by (apply Qmult_le_0_compat;
            [apply Hv; simpl; auto | apply Qsquare_nonneg]);
      pose proof (Qplus_le_compat _ _ _ _ Ha T) as S
  end.
  rewrite Qplus_0_l in S. exact S.
Qed.

(** X12.  With sub-control volumes of non-negative volume, the sum
    [printDarcyL2Error] takes the square root of is non-negative,
    whatever the solution vector and the analytical solution. *)
Theorem l2error_sum_is_nonnegative (x : list Scalar) (els : list (list Scv)) :
  (forall scv, In scv (concat els) -> 0 <= volume scv) ->
  0 <= l2error_before_sqrt analyticalSolution x els.
Proof.
  intros Hv. unfold l2error_before_sqrt. rewrite fold_left_concat.
  apply l2_fold_nonneg; [exact Hv | apply Qle_refl].
Qed.

Lemma l2_fold_zero (x : list Scalar) (l : list Scv) :
  (forall scv, In scv l ->
     nth (dofIndex scv) x 0 = nth 2 (analyticalSolution (dofPosition scv)) 0) ->
  forall acc, acc == 0 ->
    fold_left (visit_scv_l2 analyticalSolution x) l acc == 0.
Proof.
  induction l as [| s l IH]; intros Hx acc Ha; simpl; [exact Ha |].
  apply IH; [intros scv H; apply Hx; simpl; auto |].
  unfold visit_scv_l2. rewrite (Hx s) by (simpl; auto). rewrite Ha. ring.
Qed.

End DarcyPostFacts.

(** X13.  The two post-processing functions agree in two dimensions,
    where the pressure index [2] that [printDarcyL2Error] hard-codes is
    the [dim] that [createDarcyAnalyticalSolution] uses: on a consistent
    grid the error sum of the analytical pressure vector is zero. *)
Theorem l2error_of_analytical_pressure_is_zero
    (analyticalSolution : list Scalar -> list Scalar)
    (dimWorld nDofs : nat) (els : list (list Scv)) :
  consistent_dofs nDofs els ->
  l2error_before_sqrt analyticalSolution
    (fst (createDarcyAnalyticalSolution analyticalSolution 2 dimWorld nDofs els))
    els == 0.
Proof.
  intros C. unfold l2error_before_sqrt. rewrite fold_left_concat.
  apply l2_fold_zero; [| reflexivity].
  intros scv H.
  destruct (@create_analytical_spec analyticalSolution 2 dimWorld nDofs els C)
    as (_ & _ & V).
  destruct (V scv H) as [P _]. exact P.
Qed.

(** ** The spatial parameters *)

(** X14.  Constructing the spatial parameters throws a
    ParameterException exactly when one of the three keys
    Darcy.SpatialParams.Permeability, .Porosity and .AlphaBeaversJoseph
    is missing; otherwise the three accessors return the configured
    values at every position. *)
Theorem spatial_params_need_all_three_keys (getParam : string -> option Scalar) :
  (OnePSpatialParams_new getParam = inl DumuxParameterException <->
   getParam "Darcy.SpatialParams.Permeability"%string = None \/
   getParam "Darcy.SpatialParams.Porosity"%string = None \/
   getParam "Darcy.SpatialParams.AlphaBeaversJoseph"%string = None) /\
  (forall e, OnePSpatialParams_new getParam = inl e -> e = DumuxParameterException) /\
  (forall sp, OnePSpatialParams_new getParam = inr sp ->
   forall globalPos,
     getParam "Darcy.SpatialParams.Permeability"%string
       = Some (permeabilityAtPos sp globalPos) /\
     getParam "Darcy.SpatialParams.Porosity"%string
       = Some (porosityAtPos sp globalPos) /\
     getParam "Darcy.SpatialParams.AlphaBeaversJoseph"%string
       = Some (beaversJosephCoeffAtPos sp globalPos)).
Proof.
  unfold OnePSpatialParams_new, permeabilityAtPos, porosityAtPos,
    beaversJosephCoeffAtPos.
  destruct (getParam "Darcy.SpatialParams.Permeability"%string) as [k |];
    destruct (getParam "Darcy.SpatialParams.Porosity"%string) as [phi |];
    destruct (getParam "Darcy.SpatialParams.AlphaBeaversJoseph"%string) as [alpha |];
    (split; [split; [try discriminate; auto |
                     try (intros [H | [H | H]]; discriminate H); auto] |]);
    (split; [intros e H; try discriminate H; injection H as H; auto |]);
    intros sp H; try discriminate H; injection H as H; subst sp; simpl; auto.
Qed.

(** X15.  The two preprocessor conditions of the header agree for every
    version: [temperatureAtPos] is declared exactly when the class
    derives from [FVPorousMediumFlowSpatialParamsOneP], which is when the
    major version is at least 3 and the minor version at least 5 (so not
    for a minor version below 5, whatever the major one). *)
Theorem temperature_declared_with_new_parent (major minor : Z) :
  declares_temperatureAtPos major minor = new_parent_class major minor /\
  (new_parent_class major minor = true <-> (3 <= major /\ 5 <= minor)%Z).
Proof.
  unfold declares_temperatureAtPos, new_parent_class, relation.
  destruct (Z.leb_spec 3 major), (Z.leb_spec 5 minor), (Z.ltb_spec 4 minor);
    simpl; (split; [try reflexivity; lia |]); split; intros; try lia;
    try discriminate; reflexivity.
Qed.

(** ** The Darcy driver *)

Lemma nth_pred_length_is_last (A : Type) (l : list A) (d : A) :
  nth (List.length l - 1) l d = last l d.
Proof.
  induction l as [| a l IH]; [reflexivity |].
  destruct l as [| b l]; [reflexivity |].
  simpl in *. rewrite Nat.sub_0_r in IH. exact IH.
Qed.

Section DarcyRuns.

Variable fw : Framework.
Variable pc : SolverInterface.

(** X16.  Once the parameters are parsed and the grid is built, the
    Darcy driver announces the solver "Darcy" with the last command-line
    argument as the coupling configuration when there are more than two
    arguments, and with "precice-config.xml" otherwise; it then writes the
    frame at time 0 and solves.  The frame at time 1 and the L2 error
    follow only if the solve returns; if it throws, nothing more is
    called. *)
Theorem darcy_announces_then_solves
    (argv : list string) (r : Result unit) (w : World pc) :
  Parameters_init fw = None ->
  gridManager_init fw = None ->
  darcy_main_body fw pc argv (world0 pc) = (r, w) ->
  exists rest,
    trace w =
      EvAnnounceSolver "Darcy"
        (if Nat.ltb 2 (List.length argv) then last argv EmptyString
         else "precice-config.xml"%string) ::
      EvVtkWrite 0 :: EvSolve (repeat 0 (numDofs fw)) :: rest /\
    match r with
    | Ok _ => exists x, rest = [EvVtkWrite 1; EvPrintL2Error x]
    | _ => rest = []
    end.
Proof.
  intros Hp Hg.
  unfold darcy_main_body, bind, may_throw, throw, ret, emit, log, world0.
  rewrite Hp, Hg. simpl. rewrite nth_pred_length_is_last.
  destruct (newton_solve_stationary fw (newton_new fw)
              (gv_init fw (repeat 0 (numDofs fw))) (repeat 0 (numDofs fw)))
    as [e | [[ns s1] gv]]; intros H; injection H as Hr Hw; subst r w; simpl;
    eexists; (split; [reflexivity |]); eauto.
Qed.

End DarcyRuns.

(** ** Instances of the further facts *)

Lemma dimension_mismatch_exits_3_witness :
  let fw := Stub.framework Stub.explicit_setup in
  let pc := substrate_3d Stub.explicit_precice in
  Parameters_init fw = None /\
  gridManager_init fw = None /\
  getDimensions pc (configured pc) <> GridView_dimension fw /\
  main fw pc 10 = Some (3%Z, []).
Proof.
  intros fw pc.
  assert (P : Parameters_init fw = None) by reflexivity.
  assert (G : gridManager_init fw = None) by reflexivity.
  assert (D : getDimensions pc (configured pc) <> GridView_dimension fw)
    by (simpl; lia).
  split; [exact P |]. split; [exact G |]. split; [exact D |].
  exact (@dimension_mismatch_exits_3 fw pc 10 P G D).
Defined.

Lemma missing_time_loop_parameter_exits_1_witness :
  let fw := without_param "TimeLoop.DtInitial" (Stub.framework Stub.explicit_setup) in
  let pc := Stub.substrate Stub.explicit_precice in
  Parameters_init fw = None /\
  gridManager_init fw = None /\
  getDimensions pc (configured pc) = GridView_dimension fw /\
  getParam fw "TimeLoop.DtInitial" = None /\
  exists mesh dt0,
    is_mesh mesh = true /\
    main fw pc 10 =
    Some (1%Z, [mesh; EvInitialize dt0; EvInitializeData; EvVtkWrite 0]).
Proof.
  intros fw pc.
  assert (P : Parameters_init fw = None) by reflexivity.
  assert (G : gridManager_init fw = None) by reflexivity.
  assert (D : getDimensions pc (configured pc) = GridView_dimension fw) by reflexivity.
  assert (M : getParam fw "TimeLoop.DtInitial" = None) by reflexivity.
  split; [exact P |]. split; [exact G |]. split; [exact D |]. split; [exact M |].
  exact (@missing_time_loop_parameter_exits_1 fw pc 10 P G D
           (or_intror (or_intror M))).
Defined.

Lemma finalize_is_called_once_and_last_witness :
  let fw := Stub.framework Stub.explicit_setup in
  let pc := Stub.substrate Stub.explicit_precice in
  let tr := match main fw pc 10 with Some (_, t) => t | None => [] end in
  main fw pc 10 = Some (0%Z, tr) /\
  exists pre,
    tr = pre ++ [EvTimeLoopFinalize; EvPreciceFinalize] /\
    calls is_precice_finalize pre = 0%nat /\
    calls is_precice_finalize tr = 1%nat.
Proof.
  intros fw pc tr.
  assert (H : main fw pc 10 = Some (0%Z, tr)) by (vm_compute; reflexivity).
  split; [exact H |]. exact (@finalize_is_called_once_and_last fw pc 10 tr H).
Defined.

Lemma calls_per_kind_of_iteration_witness :
  let fw := Stub.framework Stub.explicit_setup in
  let pc := Stub.substrate Stub.explicit_precice in
  let tr := match main fw pc 10 with Some (_, t) => t | None => [] end in
  main fw pc 10 = Some (0%Z, tr) /\
  calls is_advance tr = 3%nat /\
  calls is_advance tr = accepted_iterations tr /\
  calls is_solve tr = (accepted_iterations tr + rollback_iterations tr)%nat.
Proof.
  intros fw pc tr.
  assert (H : main fw pc 10 = Some (0%Z, tr)) by (vm_compute; reflexivity).
  split; [exact H |]. split; [vm_compute; reflexivity |].
  exact (@calls_per_kind_of_iteration fw pc 10 tr H).
Defined.

Lemma failed_solve_ends_the_run_witness :
  let fw := with_failing_newton (Stub.framework Stub.explicit_setup) in
  let pc := Stub.substrate Stub.rollback_precice in
  let v : Vars fw := stub_entry Stub.explicit_setup Stub.rollback_precice in
  let w : World pc := stub_world Stub.rollback_precice in
  newton_solve fw (nonLinearSolver v) (solOld v)
    (solidEnergyGridVariables v) (sol v) (timeLoop v) = inl DumuxNumericalProblem /\
  isActionRequired pc readCheckpoint (precice w) = true /\
  (exists w',
     do_while 5 v w = (Throw DumuxNumericalProblem, w') /\
     trace w' =
       trace w ++
       ev_checkpoint (isActionRequired pc writeCheckpoint (precice w)) ++
       [EvSetPreviousSolution (solOld v); EvSolve (sol v)] /\
     precice w' =
       (if isActionRequired pc writeCheckpoint (precice w)
        then fulfilledAction pc writeCheckpoint (precice w) else precice w)) /\
  option_map fst (main fw (Stub.substrate Stub.explicit_precice) 5) = Some 3%Z.
Proof.
  intros fw pc v w.
  assert (N : newton_solve fw (nonLinearSolver v) (solOld v)
                (solidEnergyGridVariables v) (sol v) (timeLoop v)
              = inl DumuxNumericalProblem) by reflexivity.
  split; [exact N |]. split; [reflexivity |].
  split; [exact (proj1 (@failed_solve_ends_the_run fw pc 4 v w
                          DumuxNumericalProblem N)) |].
  vm_compute. reflexivity.
Defined.

Lemma checkpoint_written_and_read_undoes_the_solve_witness :
  let v := stub_entry Stub.explicit_setup Stub.rollback_precice in
  let w := stub_world Stub.rollback_precice in
  let v' := value v (fst (loop_body v w)) in
  let w' := snd (loop_body v w) in
  loop_body v w = (Ok v', w') /\
  In (EvIsActionRequired writeCheckpoint true) (trace w') /\
  In (EvIsActionRequired readCheckpoint true) (trace w') /\
  sol v' = sol v /\ sol_checkpoint v' = sol v.
Proof.
  intros v w v' w'.
  assert (H : loop_body v w = (Ok v', w')) by (vm_compute; reflexivity).
  assert (E : trace w' = trace w ++ trace w') by reflexivity.
  assert (W : In (EvIsActionRequired writeCheckpoint true) (trace w'))
    by (vm_compute; auto 10).
  assert (R : In (EvIsActionRequired readCheckpoint true) (trace w'))
    by (vm_compute; auto 10).
  split; [exact H |]. split; [exact W |]. split; [exact R |].
  exact (@checkpoint_written_and_read_undoes_the_solve _ _ v v' w w' (trace w')
           H E W R).
Defined.

Lemma checkpoint_kept_without_write_request_witness :
  let v := stub_entry Stub.explicit_setup Stub.explicit_precice in
  let w := stub_world Stub.explicit_precice in
  let r := do_while 10 v w in
  let v' := value v (fst r) in
  r = (Ok v', snd r) /\
  calls (is_query writeCheckpoint true) (trace (snd r)) = 0%nat /\
  sol v' = [3 # 10; 3 # 10] /\
  sol_checkpoint v' = sol_checkpoint v.
Proof.
  intros v w r v'.
  assert (H : do_while 10 v w = (Ok v', snd r)) by (vm_compute; reflexivity).
  assert (E : trace (snd r) = trace w ++ trace (snd r)) by reflexivity.
  assert (N : calls (is_query writeCheckpoint true) (trace (snd r)) = 0%nat)
    by (vm_compute; reflexivity).
  split; [exact H |]. split; [exact N |]. split; [vm_compute; reflexivity |].
  exact (@checkpoint_kept_without_write_request _ _ 10 v v' w (snd r)
           (trace (snd r)) H E N).
Defined.

Lemma first_solve_precedes_every_test_witness :
  let fw := Stub.framework finished_setup in
  let pc := Stub.substrate Stub.explicit_precice in
  let rs := startup fw pc (world0 pc) in
  let v := value (stub_entry finished_setup Stub.explicit_precice) (fst rs) in
  rs = (Ok v, snd rs) /\
  tl_finished fw (timeLoop v) = true /\
  exists wc rest,
    trace (snd (main_body fw pc 1 (world0 pc))) =
    trace (snd rs) ++ [EvTimeLoopStart] ++ ev_checkpoint wc ++
    [EvSetPreviousSolution (solOld v); EvSolve (sol v)] ++ rest.
Proof.
  intros fw pc rs v.
  assert (S : rs = (Ok v, snd rs)) by (vm_compute; reflexivity).
  split; [exact S |]. split; [vm_compute; reflexivity |].
  exact (@first_solve_precedes_every_test fw pc 0 v (snd rs) S).
Defined.

Lemma two_triangles_consistent : consistent_dofs 4 two_triangles.
Proof.
  split.
  - intros scv H. simpl in H.
    repeat (destruct H as [H | H]; [subst scv; simpl; lia |]). contradiction.
  - intros a b Ha Hb. simpl in Ha, Hb.
    repeat (destruct Ha as [Ha | Ha];
            [ subst a;
              repeat (destruct Hb as [Hb | Hb];
                      [subst b; simpl; intros E; try discriminate E; reflexivity |]);
              contradiction |]).
    contradiction.
Qed.

Lemma analytical_solution_at_every_dof_witness :
  consistent_dofs 4 two_triangles /\
  createDarcyAnalyticalSolution linear_solution 2 2 4 two_triangles =
    ([0; 1; 1; 2], [[0; 0]; [1; 0]; [0; 1]; [1; 1]]) /\
  List.length
    (fst (createDarcyAnalyticalSolution linear_solution 2 2 4 two_triangles)) = 4%nat.
Proof.
  split; [exact two_triangles_consistent |]. split; [vm_compute; reflexivity |].
  exact (proj1 (@analytical_solution_at_every_dof linear_solution 2 2 4
                  two_triangles two_triangles_consistent)).
Defined.

Lemma l2error_sum_is_nonnegative_witness :
  (forall scv, In scv (concat two_triangles) -> 0 <= volume scv) /\
  0 <= l2error_before_sqrt linear_solution [0; 0; 0; 0] two_triangles /\
  l2error_before_sqrt linear_solution [0; 0; 0; 0] two_triangles == 8 # 6.
Proof.
  assert (V : forall scv, In scv (concat two_triangles) -> 0 <= volume scv).
  { intros scv H. simpl in H.
    repeat (destruct H as [H | H]; [subst scv; simpl; discriminate |]).
    contradiction. }
  split; [exact V |].
  split; [exact (@l2error_sum_is_nonnegative linear_solution [0; 0; 0; 0]
                   two_triangles V) |].
  vm_compute. reflexivity.
Defined.

Lemma l2error_of_analytical_pressure_is_zero_witness :
  consistent_dofs 4 two_triangles /\
  l2error_before_sqrt linear_solution
    (fst (createDarcyAnalyticalSolution linear_solution 2 2 4 two_triangles))
    two_triangles == 0.
Proof.
  split; [exact two_triangles_consistent |].
  exact (@l2error_of_analytical_pressure_is_zero linear_solution 2 4
           two_triangles two_triangles_consistent).
Defined.

Lemma darcy_announces_then_solves_witness :
  let fw := Stub.framework Stub.explicit_setup in
  let pc := Stub.substrate Stub.explicit_precice in
  let argv := ["darcy"; "params.input"; "my-precice.xml"]%string in
  let r := darcy_main_body fw pc argv (world0 pc) in
  Parameters_init fw = None /\
  gridManager_init fw = None /\
  trace (snd r) =
    [EvAnnounceSolver "Darcy" "my-precice.xml"; EvVtkWrite 0; EvSolve [0; 0];
     EvVtkWrite 1; EvPrintL2Error [0; 0]] /\
  exists rest,
    trace (snd r) =
      EvAnnounceSolver "Darcy"
        (if Nat.ltb 2 (List.length argv) then last argv EmptyString
         else "precice-config.xml"%string) ::
      EvVtkWrite 0 :: EvSolve (repeat 0 (numDofs fw)) :: rest /\
    match fst r with
    | Ok _ => exists x, rest = [EvVtkWrite 1; EvPrintL2Error x]
    | _ => rest = []
    end.
Proof.
  intros fw pc argv r.
  assert (P : Parameters_init fw = None) by reflexivity.
  assert (G : gridManager_init fw = None) by reflexivity.
  assert (B : darcy_main_body fw pc argv (world0 pc) = (fst r, snd r))
    by (vm_compute; reflexivity).
  split; [exact P |]. split; [exact G |]. split; [vm_compute; reflexivity |].
  exact (@darcy_announces_then_solves fw pc argv (fst r) (snd r) P G B).
Defined.

(** ** Acknowledgments over a whole run *)

Section Acknowledgments.

Variable fw : Framework.
Variable pc : SolverInterface.





End Acknowledgments.


(** C10, the counterexample.  The Darcy driver on the test doubles
    returns with two frames written and no coupling iteration accepted:
    two is not one more than none. *)
Lemma darcy_emits_two_frames_without_iterations :
  ~ each_driver_emits_one_more_than_accepted
      (Stub.framework Stub.explicit_setup)
      (Stub.substrate Stub.explicit_precice).
Proof.
  intros [_ D].
  pose (fw := Stub.framework Stub.explicit_setup).
  pose (pc := Stub.substrate Stub.explicit_precice).
  pose (wd := snd (darcy_main_body fw pc ["darcy"; "params.input"]%string (world0 pc))).
  assert (R : darcy_main_body fw pc ["darcy"; "params.input"]%string (world0 pc)
              = (Ok tt, wd)) by (vm_compute; reflexivity).
  specialize (D _ _ R). vm_compute in D. discriminate D.
Qed.
